(** * The data-cleaning engine of the ETL application ([app.py], [clean_data])

    A shallow embedding of [clean_data] and of the pandas operations it calls,
    followed by the properties of the cleaning engine.

    Layout:
    - cell values, frames and the pandas operations on frame values;
    - the object store and a state-and-exception monad, because [clean_data]
      rebinds its local [df] to new frames and finally assigns a column in
      place on whatever object [df] is bound to;
    - [clean_data] itself, statement for statement;
    - a value-level description of it and the properties. *)

From Stdlib Require Import Ascii String.
From stdpp Require Import base list strings pretty.

Open Scope Z_scope.
Open Scope string_scope.
Open Scope list_scope.

(** ** Cell values

    The cells of an extracted table: missing values ([None] in object
    columns, [NaN] in numeric ones), text and integers.  Float cells other
    than [NaN] are not represented. *)
Inductive value : Type :=
| VNone
| VNaN
| VStr (s : string)
| VInt (z : Z).

Global Instance value_eq_dec : EqDecision value.
Proof. solve_decision. Defined.

(** The rule identifiers offered by the multiselect of step 3. *)
Inductive rule : Type :=
| DropDuplicates
| RemoveNulls
| ValidateString
| ValidateLength
| ValidateNumeric.

Global Instance rule_eq_dec : EqDecision rule.
Proof. solve_decision. Defined.

(** ['name' in options] *)
Definition in_options (r : rule) (options : list rule) : bool :=
  bool_decide (r ∈ options).

(** A frame: the column labels and the rows in order, one cell per column.
    Row labels (the index) are carried along by every operation used here and
    never consulted, so they are left out. *)
Record DataFrame : Type := mkDF {
  columns : list string;
  rows : list (list value)
}.

Global Instance DataFrame_eq_dec : EqDecision DataFrame.
Proof. solve_decision. Defined.

(** Column labels are unique and every row has one cell per column. *)
Definition wf_frame (df : DataFrame) : Prop :=
  NoDup (columns df) ∧ Forall (λ r, length r = length (columns df)) (rows df).

(** [pd.DataFrame()] *)
Definition empty_frame : DataFrame := mkDF [] [].

(** [len(df)] *)
Definition len (df : DataFrame) : nat := length (rows df).

(** [df.empty]: some axis has length 0. *)
Definition is_empty (df : DataFrame) : bool :=
  bool_decide (columns df = []) || bool_decide (rows df = []).

Inductive exn : Type :=
| KeyError (key : string)
| ValueError.

(** Results of operations on frame values: the exception monad. *)
Global Instance res_ret : MRet (sum exn) := λ A a, inr a.

Global Instance res_bind : MBind (sum exn) := λ A B f r,
  match r with
  | inl e => inl e
  | inr a => f a
  end.

(** ** pandas on frame values *)

(** [Index.get_loc]: the position of a column label. *)
Fixpoint get_loc (column : string) (cols : list string) : option nat :=
  match cols with
  | [] => None
  | c :: cols' =>
      if decide (c = column) then Some 0%nat
      else S <$> get_loc column cols'
  end.

Definition cell (k : nat) (r : list value) : value := default VNaN (r !! k).

(** [df[column]]: the column as a series of values, or [KeyError]. *)
Definition getitem (df : DataFrame) (column : string) : exn + list value :=
  match get_loc column (columns df) with
  | None => inl (KeyError column)
  | Some k => inr (cell k <$> rows df)
  end.

(** Selection by a boolean mask, position by position. *)
Fixpoint select {A} (mask : list bool) (l : list A) : list A :=
  match mask, l with
  | b :: mask', x :: l' => if b then x :: select mask' l' else select mask' l'
  | _, _ => []
  end.

(** [df[mask]]: a new frame with the rows where the mask holds. *)
Definition getitem_bool (df : DataFrame) (mask : list bool) : DataFrame :=
  mkDF (columns df) (select mask (rows df)).

(** [Series.notnull()] on one cell. *)
Definition notnull (v : value) : bool :=
  match v with
  | VNone | VNaN => false
  | _ => true
  end.

(** [astype(str)] on one cell: Python's [str]. *)
Definition astype_str (v : value) : string :=
  match v with
  | VNone => "None"
  | VNaN => "nan"
  | VStr s => s
  | VInt z => pretty z
  end.

(** [str.isspace] on the ASCII range. *)
Definition isspace (a : ascii) : bool :=
  let n := nat_of_ascii a in
  ((9 <=? n) && (n <=? 13) || (28 <=? n) && (n <=? 32))%nat.

Fixpoint lstrip (s : string) : string :=
  match s with
  | EmptyString => EmptyString
  | String a s' => if isspace a then lstrip s' else s
  end.

Fixpoint rstrip (s : string) : string :=
  match s with
  | EmptyString => EmptyString
  | String a s' =>
      match rstrip s' with
      | EmptyString => if isspace a then EmptyString else String a EmptyString
      | t => String a t
      end
  end.

(** [str.strip()] *)
Definition strip (s : string) : string := rstrip (lstrip s).

(** Equality of cells as [duplicated] sees it: all missing values are one
    key, text and integers compare by value. *)
Definition key_eqb (a b : value) : bool :=
  match a, b with
  | (VNone | VNaN), (VNone | VNaN) => true
  | VStr s, VStr t => bool_decide (s = t)
  | VInt x, VInt y => bool_decide (x = y)
  | _, _ => false
  end.

(** [duplicated(keep='first')]: a cell is marked when its key was seen at an
    earlier position. *)
Fixpoint duplicated_from (seen : list value) (s : list value) : list bool :=
  match s with
  | [] => []
  | v :: s' => existsb (key_eqb v) seen :: duplicated_from (v :: seen) s'
  end.

Definition duplicated (s : list value) : list bool := duplicated_from [] s.

(** [df.drop_duplicates(subset=[column], keep='first')].  pandas returns a
    copy of an empty frame before it looks at [subset]; otherwise a missing
    label is a [KeyError] and the result is [df[-duplicated]]. *)
Definition drop_duplicates (df : DataFrame) (column : string) : exn + DataFrame :=
  if is_empty df then inr df
  else match get_loc column (columns df) with
       | None => inl (KeyError column)
       | Some k => inr (getitem_bool df (negb <$> duplicated (cell k <$> rows df)))
       end.

(** [range(1, n + 1)] as cells. *)
Definition range1 (n : nat) : list value :=
  (λ i, VInt (Z.of_nat i)) <$> seq 1 n.

(** [df[column] = values] for a list-like: the column is replaced where it
    is, or appended as the last one.  A frame without rows takes its rows
    from the values; otherwise the lengths must agree. *)
Definition setitem (df : DataFrame) (column : string) (values : list value)
  : exn + DataFrame :=
  let base :=
    match rows df with
    | [] => replicate (length values) (replicate (length (columns df)) VNaN)
    | _ => rows df
    end in
  if decide (length base = length values) then
    match get_loc column (columns df) with
    | Some k => inr (mkDF (columns df) (zip_with (λ r v, <[k := v]> r) base values))
    | None => inr (mkDF (columns df ++ [column]) (zip_with (λ r v, r ++ [v]) base values))
    end
  else inl ValueError.

(** The masks of the four per-cell rules, as the source computes them from
    the column. *)

(** [s.notnull()] *)
Definition mask_notnull (s : list value) : list bool := notnull <$> s.

(** [s.astype(str).str.strip() != ''] *)
Definition nonblank (v : value) : bool :=
  negb (bool_decide (strip (astype_str v) = "")).

Definition mask_nonblank (s : list value) : list bool := nonblank <$> s.

(** [s.astype(str).str.len() >= 3] *)
Definition long_enough (v : value) : bool :=
  (3 <=? String.length (astype_str v))%nat.

Definition mask_long_enough (s : list value) : list bool := long_enough <$> s.

(** ** The object store

    Frames are objects; a Python variable holds a reference.  The store is
    the list of the frames allocated so far, a reference is a position in
    it. *)
Abbreviation loc := nat (only parsing).
Abbreviation store := (list DataFrame) (only parsing).

(** Computations that read and write the store and may raise. *)
Definition M (A : Type) : Type := store → (exn + A) * store.

Global Instance M_ret : MRet M := λ A a h, (inr a, h).

Global Instance M_bind : MBind M := λ A B f m h,
  match m h with
  | (inl e, h') => (inl e, h')
  | (inr a, h') => f a h'
  end.

Definition raise {A} (e : exn) : M A := λ h, (inl e, h).

Definition lift {A} (r : exn + A) : M A :=
  match r with
  | inl e => raise e
  | inr a => mret a
  end.

(** [try: body except Exception as e: handler] *)
Definition try_except {A} (body : M A) (handler : exn → M A) : M A := λ h,
  match body h with
  | (inl e, h') => handler e h'
  | (inr a, h') => (inr a, h')
  end.

(** The frame a reference points to. *)
Definition deref (l : loc) : M DataFrame := λ h,
  (inr (default empty_frame (h !! l)), h).

(** A new object. *)
Definition new (d : DataFrame) : M loc := λ h, (inr (length h), h ++ [d]).

(** In-place update of an object. *)
Definition assign (l : loc) (d : DataFrame) : M unit := λ h,
  (inr tt, <[l := d]> h).

(** The pandas methods on references.  Every one of them but [df_setitem]
    returns a new object and leaves its receiver alone. *)
Definition df_drop_duplicates (df : loc) (column : string) : M loc :=
  d ← deref df; d' ← lift (drop_duplicates d column); new d'.

Definition df_getitem (df : loc) (column : string) : M (list value) :=
  d ← deref df; lift (getitem d column).

Definition df_getitem_bool (df : loc) (mask : list bool) : M loc :=
  d ← deref df; new (getitem_bool d mask).

Definition df_len (df : loc) : M nat :=
  d ← deref df; mret (len d).

Definition df_setitem (df : loc) (column : string) (values : list value) : M unit :=
  d ← deref df; d' ← lift (setitem d column values); assign df d'.

(** ** Inputs of the examples

    A number test for the examples: plain decimal digits. *)
Definition is_digit (a : ascii) : bool :=
  let n := nat_of_ascii a in ((48 <=? n) && (n <=? 57))%nat.

Definition all_digits (s : string) : bool :=
  negb (bool_decide (s = "")) && forallb is_digit (list_ascii_of_string s).

(** The frame and the rule set of the scenario. *)
Definition scenario_frame : DataFrame :=
  mkDF ["name"; "age"]
       [ [VStr "alice"; VStr "30"];
         [VStr "alice"; VStr "31"];
         [VNone; VStr "25"];
         [VStr "bo"; VStr "x"] ].

Definition scenario_rules : list (string * list rule) :=
  [ ("name", [DropDuplicates; RemoveNulls]); ("age", [ValidateNumeric]) ].

(** What is selected for each column in the scenario. *)
Definition scenario_selection (column : string) : list rule :=
  if decide (column = "name") then [DropDuplicates; RemoveNulls]
  else [ValidateNumeric].

(** A column with a missing value, text that is no number, and a number. *)
Definition mixed_frame : DataFrame :=
  mkDF ["v"] [ [VNone]; [VStr "x"]; [VStr "5"] ].

(** A rule set with an item for a column the scenario frame lacks. *)
Definition unknown_rules : list (string * list rule) :=
  [ ("nope", [RemoveNulls]); ("age", [ValidateNumeric]) ].

(** A frame and a rule set whose items are not in the order of the columns. *)
Definition pair_frame : DataFrame :=
  mkDF ["a"; "b"] [ [VInt 1; VNone]; [VInt 1; VStr "x"] ].


Section Engine.

(** Whether [pd.to_numeric(..., errors='coerce')] turns a text cell into a
    number other than [NaN].  The number grammar of pandas is not part of the
    application; the engine is verified for any such test. *)
Variable text_numeric : string → bool.

(** [pd.to_numeric(s, errors='coerce').notnull()] on one cell. *)
Definition to_numeric_notnull (v : value) : bool :=
  match v with
  | VNone | VNaN => false
  | VStr s => text_numeric s
  | VInt _ => true
  end.

Definition mask_numeric (s : list value) : list bool := to_numeric_notnull <$> s.

(** ** [clean_data]

    The body of the loop for one item of [cleaning_options].  The calls to
    [st.write] and [st.dataframe] only display and are left out. *)
Definition clean_column (column : string) (options : list rule) (df : loc) : M loc :=
  df ← (if in_options DropDuplicates options
        then df_drop_duplicates df column
        else mret df);
  df ← (if in_options RemoveNulls options
        then s ← df_getitem df column; df_getitem_bool df (mask_notnull s)
        else mret df);
  df ← (if in_options ValidateString options
        then s ← df_getitem df column; df_getitem_bool df (mask_nonblank s)
        else mret df);
  df ← (if in_options ValidateLength options
        then s ← df_getitem df column; df_getitem_bool df (mask_long_enough s)
        else mret df);
  if in_options ValidateNumeric options
  then s ← df_getitem df column; df_getitem_bool df (mask_numeric s)
  else mret df.

(** [for column, options in cleaning_options.items()]: the items of the
    dictionary in its own (insertion) order. *)
Fixpoint for_items (items : list (string * list rule)) (df : loc) : M loc :=
  match items with
  | [] => mret df
  | (column, options) :: items' =>
      df ← clean_column column options df; for_items items' df
  end.

Definition clean_data (df : loc) (cleaning_options : list (string * list rule)) : M loc :=
  try_except
    (df ← for_items cleaning_options df;
     n ← df_len df;
     df_setitem df "id" (range1 n);;
     mret df)
    (λ _, new empty_frame).

(** ** The engine on frame values

    What [clean_data] computes, without the store: the chain of frames the
    local [df] runs through.  [clean_data_run] below relates the two. *)

(** [df[p(df[column])]] *)
Definition keep_rows (p : value → bool) (column : string) (d : DataFrame)
  : exn + DataFrame :=
  match getitem d column with
  | inl e => inl e
  | inr s => inr (getitem_bool d (p <$> s))
  end.

(** The frame operation of each rule. *)
Definition apply_rule (r : rule) (column : string) (d : DataFrame) : exn + DataFrame :=
  match r with
  | DropDuplicates => drop_duplicates d column
  | RemoveNulls => keep_rows notnull column d
  | ValidateString => keep_rows nonblank column d
  | ValidateLength => keep_rows long_enough column d
  | ValidateNumeric => keep_rows to_numeric_notnull column d
  end.

(** [if 'r' in options: df = ...] *)
Definition when_selected (r : rule) (column : string) (options : list rule)
    (d : DataFrame) : exn + DataFrame :=
  if in_options r options then apply_rule r column d else inr d.

Definition column_rules (column : string) (options : list rule) (d : DataFrame)
  : exn + DataFrame :=
  d ← when_selected DropDuplicates column options d;
  d ← when_selected RemoveNulls column options d;
  d ← when_selected ValidateString column options d;
  d ← when_selected ValidateLength column options d;
  when_selected ValidateNumeric column options d.

Fixpoint all_rules (items : list (string * list rule)) (d : DataFrame)
  : exn + DataFrame :=
  match items with
  | [] => inr d
  | (column, options) :: items' =>
      d ← column_rules column options d; all_rules items' d
  end.

(** [df['id'] = range(1, len(df) + 1)] *)
Definition set_id (d : DataFrame) : exn + DataFrame :=
  setitem d "id" (range1 (len d)).

(** The frame [clean_data] returns: the frame after all rules with its [id]
    column, or [pd.DataFrame()] when something raised. *)
Definition clean_frame (items : list (string * list rule)) (d : DataFrame) : DataFrame :=
  match all_rules items d ≫= set_id with
  | inl _ => empty_frame
  | inr d' => d'
  end.

(** Some item selects a rule, so that [df] is rebound at least once. *)
Definition rebinds (items : list (string * list rule)) : bool :=
  existsb (λ item, negb (bool_decide (item.2 = []))) items.

(** The frame a computation returns a reference to. *)
Definition returns (m : M loc) (h : store) (d : DataFrame) : Prop :=
  ∃ l h', m h = (inr l, h') ∧ h' !! l = Some d.

(** ** The engine as the specification words it, for comparison

    These definitions follow the specification, not the source: the rules of
    a column in the order listed, the columns in the order of the frame, and
    items for unknown columns skipped. *)

(** Following the specification: the rules of one column applied one after
    the other in the order in which the list names them. *)
Fixpoint listed_rules (column : string) (options : list rule) (d : DataFrame)
  : exn + DataFrame :=
  match options with
  | [] => inr d
  | r :: options' => d ← apply_rule r column d; listed_rules column options' d
  end.

(** Following the specification: the rules of every item in the order
    listed. *)
Fixpoint all_rules_listed (items : list (string * list rule)) (d : DataFrame)
  : exn + DataFrame :=
  match items with
  | [] => inr d
  | (column, options) :: items' =>
      d ← listed_rules column options d; all_rules_listed items' d
  end.

Definition clean_frame_listed (items : list (string * list rule)) (d : DataFrame)
  : DataFrame :=
  match all_rules_listed items d ≫= set_id with
  | inl _ => empty_frame
  | inr d' => d'
  end.




(** Following the specification: the rule set without the items of columns
    the frame does not have. *)
Definition known_items (d : DataFrame) (items : list (string * list rule))
  : list (string * list rule) :=
  filter (λ item, item.1 ∈ columns d) items.

(** ** Auxiliary notions of the statements and proofs *)

(** A frame without one of its columns. *)
Definition without_column (column : string) (d : DataFrame) : DataFrame :=
  match get_loc column (columns d) with
  | None => d
  | Some k => mkDF (delete k (columns d)) (delete k <$> rows d)
  end.

(** The key of a cell under [key_eqb]: missing values are one key. *)
Definition canon (v : value) : value :=
  match v with
  | VNaN => VNone
  | _ => v
  end.


(** Whether a key is among those seen. *)
Definition seen_key (v : value) (seen : list value) : bool :=
  existsb (key_eqb v) seen.

(** [m] computes [f] on the frame its argument points to, extends the store
    and returns a new object exactly when [fresh] holds. *)
Definition tracks (m : loc → M loc) (f : DataFrame → exn + DataFrame) (fresh : bool) : Prop :=
  ∀ l h d, h !! l = Some d →
    match f d with
    | inl e => ∃ h2, m l h = (inl e, h ++ h2)
    | inr d' => ∃ h2 l', m l h = (inr l', h ++ h2) ∧ (h ++ h2) !! l' = Some d' ∧
                        if fresh then (length h ≤ l')%nat else l' = l ∧ h2 = []
    end.

(** A rule list selects some rule unless it is empty. *)
Definition selects (options : list rule) : bool :=
  in_options DropDuplicates options || (in_options RemoveNulls options ||
  (in_options ValidateString options || (in_options ValidateLength options ||
  in_options ValidateNumeric options))).

(** The frame with its [id] column, written out. *)
Definition with_id (d : DataFrame) : DataFrame :=
  match get_loc "id" (columns d) with
  | Some k => mkDF (columns d) (zip_with (λ r v, <[k := v]> r) (rows d) (range1 (len d)))
  | None => mkDF (columns d ++ ["id"]) (zip_with (λ r v, r ++ [v]) (rows d) (range1 (len d)))
  end.

(** The rows [drop_duplicates] keeps, on the rows themselves: a row stays
    when the key of its cell at position [k] is not among those seen. *)
Fixpoint firsts (k : nat) (seen : list value) (l : list (list value)) : list (list value) :=
  match l with
  | [] => []
  | r :: l' =>
      if existsb (key_eqb (cell k r)) seen
      then firsts k (cell k r :: seen) l'
      else r :: firsts k (cell k r :: seen) l'
  end.

(** The effect of a rule on the rows when the column is at position [k]. *)
Definition rule_rows (r : rule) (k : nat) (l : list (list value)) : list (list value) :=
  match r with
  | DropDuplicates => firsts k [] l
  | RemoveNulls => filter (λ row, notnull (cell k row)) l
  | ValidateString => filter (λ row, nonblank (cell k row)) l
  | ValidateLength => filter (λ row, long_enough (cell k row)) l
  | ValidateNumeric => filter (λ row, to_numeric_notnull (cell k row)) l
  end.

(** The test a filtering rule makes on a cell. *)
Definition rule_test (r : rule) : value → bool :=
  match r with
  | DropDuplicates => λ _, true
  | RemoveNulls => notnull
  | ValidateString => nonblank
  | ValidateLength => long_enough
  | ValidateNumeric => to_numeric_notnull
  end.

(** The order in which [clean_data] tests for the rules. *)
Definition source_order : list rule :=
  [DropDuplicates; RemoveNulls; ValidateString; ValidateLength; ValidateNumeric].

(** The rows after the selected rules, taken in a given order. *)
Definition selected_rows (order options : list rule) (k : nat) (l : list (list value))
  : list (list value) :=
  foldl (λ l r, if in_options r options then rule_rows r k l else l) l order.

(** The rows after the rules of a list, one after the other. *)
Definition listed_rows (options : list rule) (k : nat) (l : list (list value))
  : list (list value) :=
  foldl (λ l r, rule_rows r k l) l options.

(** On a column the frame does not have, only [drop_duplicates] on an empty
    frame does not raise. *)
Definition absent_ok (d : DataFrame) (options : list rule) : bool :=
  forallb (λ r, bool_decide (r = DropDuplicates) && is_empty d) options.

(** Every rule keeps the columns and returns some of the rows, in their
    order. *)
Definition shrinks (d d' : DataFrame) : Prop :=
  columns d' = columns d ∧ rows d' `sublist_of` rows d.

(** ** The callers of [clean_data]: steps 2 to 4 of the page *)

(** [list.index]: the first position of a value, [ValueError] when it is not
    in the list. *)
Definition list_index (x : string) (names : list string) : exn + nat :=
  match get_loc x names with
  | Some i => inr i
  | None => inl ValueError
  end.

(** [names.index(selected) if selected in names else 0]: the index at which
    the select boxes of step 2 start. *)
Definition selectbox_index (names : list string) (selected : string) : exn + nat :=
  if bool_decide (selected ∈ names) then list_index selected names else inr 0%nat.

(** [cleaning_options[column] = options] on the items of a dictionary: the
    value of a key that is there is replaced where it stands, a new key goes
    last. *)
Fixpoint dict_setitem (column : string) (options : list rule)
    (items : list (string * list rule)) : list (string * list rule) :=
  match items with
  | [] => [(column, options)]
  | (c, o) :: items' =>
      if decide (c = column) then (c, options) :: items'
      else (c, o) :: dict_setitem column options items'
  end.

(** The loop of step 3 over [raw_data.columns]; [selection] is what the
    multiselect of each column returns. *)
Definition build_options (cols : list string) (selection : string → list rule)
  : list (string * list rule) :=
  foldl (λ cleaning_options column,
           dict_setitem column (selection column) cleaning_options) [] cols.

(** The two frames [st.session_state] holds for steps 3 and 4. *)
Record session : Type := mkSession {
  raw_data : loc;
  cleaned_data : loc
}.

(** Step 3: on raw data that is not empty, build the rule set and, when the
    button was pressed, store what [clean_data] returns. *)
Definition step3 (ss : session) (selection : string → list rule) (clicked : bool)
  : M session :=
  raw ← deref (raw_data ss);
  if negb (is_empty raw) then
    let cleaning_options := build_options (columns raw) selection in
    if clicked then
      l ← clean_data (raw_data ss) cleaning_options;
      mret (mkSession (raw_data ss) l)
    else mret ss
  else mret ss.

(** Step 4: the frame handed to [load_cleaned_data], if any. *)
Definition step4 (ss : session) (clicked : bool) : M (option loc) :=
  cleaned ← deref (cleaned_data ss);
  if negb (is_empty cleaned) then
    if clicked then mret (Some (cleaned_data ss)) else mret None
  else mret None.

(** One run of the script from step 3 on; a button is pressed in at most one
    run. *)
Definition run (ss : session) (selection : string → list rule)
    (clean_clicked load_clicked : bool) : M (session * option loc) :=
  ss' ← step3 ss selection clean_clicked;
  loaded ← step4 ss' load_clicked;
  mret (ss', loaded).

(** ** Further notions of the statements and proofs *)


(** A cell passes all the tests of a list of rules. *)
Definition pass (options : list rule) (v : value) : bool :=
  forallb (λ r, rule_test r v) options.

(** The frame of a result, if there is one. *)
Definition frame_of (r : exn + DataFrame) : option DataFrame :=
  match r with
  | inl _ => None
  | inr d => Some d
  end.

(** * Properties *)

(** ** The store *)

Lemma bind_inl {A B} (e : exn) (f : A → exn + B) : (inl e ≫= f) = inl e.
Proof. reflexivity. Qed.

Lemma bind_inr {A B} (a : A) (f : A → exn + B) : (inr a ≫= f) = f a.
Proof. reflexivity. Qed.

Lemma bind_run {A B} (m : M A) (f : A → M B) h :
  (m ≫= f) h = match m h with
               | (inl e, h') => (inl e, h')
               | (inr a, h') => f a h'
               end.
Proof. reflexivity. Qed.

Lemma tracks_ret : tracks (λ l, mret l) (λ d, inr d) false.
Proof.
  intros l h d Hl. exists [], l. rewrite app_nil_r. done.
Qed.

Lemma tracks_bind m1 f1 b1 m2 f2 b2 :
  tracks m1 f1 b1 → tracks m2 f2 b2 →
  tracks (λ l, l' ← m1 l; m2 l') (λ d, d' ← f1 d; f2 d') (b1 || b2).
Proof.
  intros H1 H2 l h d Hl. specialize (H1 l h d Hl).
  rewrite bind_run.
  destruct (f1 d) as [e|d1].
  - rewrite bind_inl. destruct H1 as [h2 ->]. eauto.
  - rewrite bind_inr. destruct H1 as (h2 & l1 & -> & Hl1 & Hf1).
    specialize (H2 l1 (h ++ h2) d1 Hl1).
    destruct (f2 d1) as [e|d2].
    + destruct H2 as [h3 ->]. exists (h2 ++ h3). by rewrite app_assoc.
    + destruct H2 as (h3 & l2 & -> & Hl2 & Hf2).
      exists (h2 ++ h3), l2. rewrite app_assoc. split_and!; [done..|].
      destruct b1, b2; simpl in *.
      * rewrite length_app in Hf2. lia.
      * destruct Hf2 as [-> ->]. done.
      * rewrite length_app in Hf2. lia.
      * destruct Hf1 as [-> ->], Hf2 as [-> ->]. done.
Qed.

Lemma tracks_drop_duplicates column :
  tracks (λ l, df_drop_duplicates l column) (λ d, drop_duplicates d column) true.
Proof.
  intros l h d Hl. unfold df_drop_duplicates, deref, new.
  rewrite !bind_run, Hl. simpl.
  destruct (drop_duplicates d column) as [e|d']; simpl.
  - exists []. by rewrite app_nil_r.
  - exists [d'], (length h). split_and!; [done| |done].
    by rewrite lookup_app_r, Nat.sub_diag.
Qed.

Lemma tracks_keep_rows p column :
  tracks (λ l, s ← df_getitem l column; df_getitem_bool l (p <$> s))
         (keep_rows p column) true.
Proof.
  intros l h d Hl. unfold keep_rows, df_getitem, df_getitem_bool, deref, new.
  rewrite !bind_run, Hl. simpl.
  destruct (getitem d column) as [e|s]; simpl.
  - exists []. by rewrite app_nil_r.
  - rewrite !bind_run, Hl. simpl.
    exists [getitem_bool d (p <$> s)], (length h). split_and!; [done| |done].
    by rewrite lookup_app_r, Nat.sub_diag.
Qed.

Lemma tracks_if (b : bool) m f :
  tracks m f true →
  tracks (λ l, if b then m l else mret l) (λ d, if b then f d else inr d) b.
Proof.
  destruct b; [done|]. intros _. apply tracks_ret.
Qed.

Lemma selects_nonempty options : selects options = negb (bool_decide (options = [])).
Proof.
  destruct options as [|r options]; [done|].
  unfold selects, in_options.
  assert (Hr : r ∈ r :: options) by apply list_elem_of_here.
  rewrite (bool_decide_eq_false_2 (r :: options = [])) by done. simpl.
  destruct r; repeat (rewrite (bool_decide_eq_true_2 _ Hr); simpl; try done);
    rewrite ?orb_true_r; done.
Qed.

Lemma tracks_clean_column column options :
  tracks (clean_column column options) (column_rules column options) (selects options).
Proof.
  unfold clean_column, column_rules, when_selected, apply_rule, selects.
  repeat (eapply (tracks_bind _ _ _ _ _ _); [apply tracks_if|]);
    try apply tracks_if;
    first [apply tracks_drop_duplicates | apply tracks_keep_rows].
Qed.

Lemma tracks_for_items items :
  tracks (for_items items) (all_rules items) (rebinds items).
Proof.
  induction items as [|[column options] items IH]; simpl.
  - apply tracks_ret.
  - rewrite <- selects_nonempty.
    apply (tracks_bind _ _ _ _ _ _ (tracks_clean_column column options) IH).
Qed.

Lemma all_rules_no_rebind items d : rebinds items = false → all_rules items d = inr d.
Proof.
  induction items as [|[column options] items IH]; simpl; [done|].
  intros [Ho Hi]%orb_false_elim.
  apply negb_false_iff, bool_decide_eq_true in Ho as ->. by apply IH.
Qed.

Lemma length_range1 n : length (range1 n) = n.
Proof. unfold range1. by rewrite length_fmap, length_seq. Qed.

(** The assignment of the [id] column never raises: the range has the length
    of the frame. *)
Lemma set_id_with_id d : set_id d = inr (with_id d).
Proof.
  unfold set_id, setitem, with_id, len.
  destruct (rows d) as [|r rs] eqn:Hr.
  - simpl. by destruct (get_loc "id" (columns d)).
  - rewrite length_range1, decide_True by done.
    by destruct (get_loc "id" (columns d)).
Qed.

(** What a call of [clean_data] does to the store: it returns a reference to
    [clean_frame]; when no item selects a rule that reference is the argument
    itself, whose frame is updated in place, and otherwise the object is new
    and the objects that existed before the call are as they were. *)
Lemma clean_data_run items l h d :
  h !! l = Some d →
  ∃ l' h', clean_data l items h = (inr l', h') ∧
           h' !! l' = Some (clean_frame items d) ∧
           if rebinds items
           then (length h ≤ l')%nat ∧ ∃ h2, h' = h ++ h2
           else l' = l ∧ h' = <[l := clean_frame items d]> h.
Proof.
  intros Hl. pose proof (tracks_for_items items l h d Hl) as H.
  unfold clean_data, clean_frame, try_except. rewrite bind_run.
  destruct (all_rules items d) as [e|d1] eqn:Hall.
  - destruct H as [h2 ->]. rewrite bind_inl. unfold new.
    exists (length (h ++ h2)), ((h ++ h2) ++ [empty_frame]).
    split_and!; [done|by rewrite lookup_app_r, Nat.sub_diag|].
    destruct (rebinds items) eqn:Hb.
    + split; [rewrite length_app; lia|]. exists (h2 ++ [empty_frame]). by rewrite app_assoc.
    + by rewrite all_rules_no_rebind in Hall.
  - destruct H as (h2 & l' & -> & Hl' & Hf). rewrite bind_inr, set_id_with_id.
    unfold df_len, df_setitem, deref, assign. rewrite !bind_run, Hl'. simpl.
    rewrite !bind_run, Hl'. simpl. fold (set_id d1). rewrite set_id_with_id. simpl.
    assert (Hlt : (l' < length (h ++ h2))%nat) by (by eapply lookup_lt_Some).
    exists l', (<[l' := with_id d1]> (h ++ h2)).
    split_and!; [done|by apply list_lookup_insert_eq|].
    destruct (rebinds items).
    + split; [done|]. exists (<[(l' - length h)%nat := with_id d1]> h2).
      by rewrite insert_app_r_alt.
    + destruct Hf as [-> ->]. by rewrite app_nil_r.
Qed.

(** ** Frames *)

Lemma get_loc_Some column cols k :
  get_loc column cols = Some k → cols !! k = Some column.
Proof.
  revert k. induction cols as [|c cols IH]; intros k; simpl; [done|].
  destruct (decide (c = column)) as [->|Hne].
  - by intros [= <-].
  - destruct (get_loc column cols) as [k'|]; simpl; [|done].
    intros [= <-]. by apply IH.
Qed.

Lemma get_loc_None column cols : get_loc column cols = None ↔ column ∉ cols.
Proof.
  induction cols as [|c cols IH]; simpl.
  - split; [intros _; apply not_elem_of_nil|done].
  - rewrite not_elem_of_cons. destruct (decide (c = column)) as [->|Hne].
    + split; [done|]. by intros [? _].
    + destruct (get_loc column cols) as [k'|]; simpl.
      * split; [done|]. intros [_ Hn]. by apply IH in Hn.
      * split; [|done]. intros _. split; [done|]. by apply IH.
Qed.

Lemma get_loc_is_Some column cols : column ∈ cols → ∃ k, get_loc column cols = Some k.
Proof.
  intros Hin. destruct (get_loc column cols) as [k|] eqn:Hk; [by exists k|].
  by apply get_loc_None in Hk.
Qed.

Lemma get_loc_app_new column cols :
  column ∉ cols → get_loc column (cols ++ [column]) = Some (length cols).
Proof.
  induction cols as [|c cols IH]; simpl.
  - intros _. by rewrite decide_True.
  - intros [Hne Hn]%not_elem_of_cons. rewrite decide_False by done.
    by rewrite IH.
Qed.

Lemma select_fmap {A B} (p : B → bool) (f : A → B) (l : list A) :
  select (p <$> (f <$> l)) l = filter (λ x, p (f x)) l.
Proof.
  induction l as [|x l IH]; [done|].
  rewrite !fmap_cons, filter_cons. cbn [select]. rewrite IH.
  by destruct (p (f x)).
Qed.

Lemma select_sublist {A} (mask : list bool) (l : list A) : select mask l `sublist_of` l.
Proof.
  revert mask. induction l as [|x l IH]; intros [|b mask]; simpl;
    try apply sublist_nil_l.
  destruct b; [apply sublist_skip|apply sublist_cons]; apply IH.
Qed.

Lemma select_duplicated k seen l :
  select (negb <$> duplicated_from seen (cell k <$> l)) l = firsts k seen l.
Proof.
  revert seen. induction l as [|r l IH]; intros seen; simpl; [done|].
  rewrite IH. by destruct (existsb (key_eqb (cell k r)) seen).
Qed.

Lemma keep_rows_present p column d k :
  get_loc column (columns d) = Some k →
  keep_rows p column d = inr (mkDF (columns d) (filter (λ r, p (cell k r)) (rows d))).
Proof.
  intros Hk. unfold keep_rows, getitem, getitem_bool. rewrite Hk.
  by rewrite select_fmap.
Qed.

Lemma keep_rows_absent p column d :
  column ∉ columns d → keep_rows p column d = inl (KeyError column).
Proof.
  intros Hk%get_loc_None. unfold keep_rows, getitem. by rewrite Hk.
Qed.

Lemma drop_duplicates_present column d k :
  get_loc column (columns d) = Some k →
  drop_duplicates d column = inr (mkDF (columns d) (firsts k [] (rows d))).
Proof.
  intros Hk. unfold drop_duplicates, is_empty, getitem_bool, duplicated.
  rewrite Hk, select_duplicated.
  destruct d as [cols rs]; simpl in *.
  destruct cols as [|c cols]; [done|].
  rewrite bool_decide_eq_false_2 by done. simpl.
  destruct rs as [|r rs]; [done|].
  by rewrite bool_decide_eq_false_2.
Qed.

Lemma apply_rule_present r column d k :
  get_loc column (columns d) = Some k →
  apply_rule r column d = inr (mkDF (columns d) (rule_rows r k (rows d))).
Proof.
  intros Hk. destruct r; simpl;
    first [by apply drop_duplicates_present | by apply keep_rows_present].
Qed.

Lemma shrinks_refl d : shrinks d d.
Proof. by split. Qed.

Lemma shrinks_trans d1 d2 d3 : shrinks d1 d2 → shrinks d2 d3 → shrinks d1 d3.
Proof.
  intros [Hc1 Hr1] [Hc2 Hr2]. split; [congruence|]. by etrans.
Qed.

Lemma getitem_bool_shrinks d mask : shrinks d (getitem_bool d mask).
Proof. split; [done|]. apply select_sublist. Qed.

Lemma apply_rule_shrinks r column d d' :
  apply_rule r column d = inr d' → shrinks d d'.
Proof.
  destruct r; simpl; unfold drop_duplicates, keep_rows, getitem.
  - destruct (is_empty d); [intros [= <-]; apply shrinks_refl|].
    destruct (get_loc column (columns d)); [|done].
    intros [= <-]. apply getitem_bool_shrinks.
  - destruct (get_loc column (columns d)); [|done].
    intros [= <-]. apply getitem_bool_shrinks.
  - destruct (get_loc column (columns d)); [|done].
    intros [= <-]. apply getitem_bool_shrinks.
  - destruct (get_loc column (columns d)); [|done].
    intros [= <-]. apply getitem_bool_shrinks.
  - destruct (get_loc column (columns d)); [|done].
    intros [= <-]. apply getitem_bool_shrinks.
Qed.

Lemma when_selected_shrinks r column options d d' :
  when_selected r column options d = inr d' → shrinks d d'.
Proof.
  unfold when_selected. destruct (in_options r options).
  - apply apply_rule_shrinks.
  - intros [= <-]. apply shrinks_refl.
Qed.

Lemma bind_inr_inv {A B} (r : exn + A) (f : A → exn + B) b :
  r ≫= f = inr b → ∃ a, r = inr a ∧ f a = inr b.
Proof. destruct r as [e|a]; [done|]. intros H. by exists a. Qed.

Lemma column_rules_shrinks column options d d' :
  column_rules column options d = inr d' → shrinks d d'.
Proof.
  unfold column_rules.
  intros (d1 & H1%when_selected_shrinks & (d2 & H2%when_selected_shrinks &
    (d3 & H3%when_selected_shrinks & (d4 & H4%when_selected_shrinks &
     H5%when_selected_shrinks)%bind_inr_inv)%bind_inr_inv)%bind_inr_inv)%bind_inr_inv.
  eauto using shrinks_trans.
Qed.

Lemma all_rules_shrinks items d d' :
  all_rules items d = inr d' → shrinks d d'.
Proof.
  revert d. induction items as [|[column options] items IH]; intros d; simpl.
  - intros [= <-]. apply shrinks_refl.
  - intros (d1 & H1%column_rules_shrinks & H2%IH)%bind_inr_inv.
    eauto using shrinks_trans.
Qed.

Lemma shrinks_wf d d' : shrinks d d' → wf_frame d → wf_frame d'.
Proof.
  intros [Hc Hr] [Hn Hl]. split; rewrite Hc; [done|].
  rewrite Forall_forall in *. intros r Hin. apply Hl.
  by eapply sublist_subseteq.
Qed.


(** No rule raises on a column the frame has. *)
Lemma when_selected_present r column options d :
  column ∈ columns d →
  ∃ d', when_selected r column options d = inr d' ∧ columns d' = columns d.
Proof.
  intros [k Hk]%get_loc_is_Some. unfold when_selected.
  destruct (in_options r options); [|by exists d].
  rewrite (apply_rule_present r column d k Hk). eauto.
Qed.

Lemma column_rules_present column options d :
  column ∈ columns d → ∃ d', column_rules column options d = inr d'.
Proof.
  intros Hin. unfold column_rules.
  destruct (when_selected_present DropDuplicates column options d Hin) as (d1 & -> & E1).
  rewrite bind_inr. rewrite <- E1 in Hin.
  destruct (when_selected_present RemoveNulls column options d1 Hin) as (d2 & -> & E2).
  rewrite bind_inr. rewrite <- E2 in Hin.
  destruct (when_selected_present ValidateString column options d2 Hin) as (d3 & -> & E3).
  rewrite bind_inr. rewrite <- E3 in Hin.
  destruct (when_selected_present ValidateLength column options d3 Hin) as (d4 & -> & E4).
  rewrite bind_inr. rewrite <- E4 in Hin.
  destruct (when_selected_present ValidateNumeric column options d4 Hin) as (d5 & -> & E5).
  eauto.
Qed.

(** The rules run through when every configured column is a column of the
    frame. *)
Lemma all_rules_present items d :
  (∀ item, item ∈ items → item.1 ∈ columns d) →
  ∃ d', all_rules items d = inr d'.
Proof.
  revert d. induction items as [|[column options] items IH]; intros d Hin; simpl.
  - eauto.
  - destruct (column_rules_present column options d) as [d1 H1].
    { apply (Hin (column, options)), list_elem_of_here. }
    rewrite H1, bind_inr. apply IH. intros item Hi.
    apply column_rules_shrinks in H1 as [-> _].
    apply Hin. by apply list_elem_of_further.
Qed.


(** ** The [id] column *)

Lemma fmap_zip_with_l {A B C D} (g : C → D) (g0 : A → D) (f : A → B → C) l vs :
  length l = length vs →
  Forall (λ a, ∀ b, g (f a b) = g0 a) l →
  g <$> zip_with f l vs = g0 <$> l.
Proof.
  revert vs. induction l as [|a l IH]; intros [|v vs] Hlen HF; try done.
  apply Forall_cons in HF as [Ha Hl]. cbn [zip_with].
  rewrite !fmap_cons, Ha. f_equal. apply IH; [by injection Hlen|done].
Qed.


Lemma delete_insert_same {A} (r : list A) k v : delete k (<[k := v]> r) = delete k r.
Proof.
  revert k. induction r as [|a r IH]; intros [|k]; simpl; try done.
  f_equal. apply IH.
Qed.

Lemma delete_snoc {A} (r : list A) v : delete (length r) (r ++ [v]) = r.
Proof. induction r as [|a r IH]; simpl; [done|]. by rewrite IH. Qed.



Lemma len_with_id d : len (with_id d) = len d.
Proof.
  unfold with_id, len. destruct (get_loc "id" (columns d)); simpl;
    by rewrite length_zip_with_l_eq by (by rewrite length_range1).
Qed.

Lemma columns_with_id d :
  columns (with_id d) =
  if bool_decide ("id" ∈ columns d) then columns d else columns d ++ ["id"].
Proof.
  unfold with_id. destruct (get_loc "id" (columns d)) as [k|] eqn:Hk; simpl.
  - rewrite bool_decide_eq_true_2; [done|].
    apply get_loc_Some in Hk. by eapply list_elem_of_lookup_2.
  - apply get_loc_None in Hk. by rewrite bool_decide_eq_false_2.
Qed.


Lemma without_id_with_id d :
  wf_frame d → without_column "id" (with_id d) = without_column "id" d.
Proof.
  intros [Hn Hl]. unfold with_id, without_column.
  destruct (get_loc "id" (columns d)) as [k|] eqn:Hk; simpl.
  - rewrite Hk. f_equal. apply fmap_zip_with_l; [by rewrite length_range1|].
    apply Forall_true. intros r v. apply delete_insert_same.
  - apply get_loc_None in Hk. rewrite get_loc_app_new by done.
    rewrite delete_snoc. destruct d as [cols rs]; simpl in *. f_equal.
    trans (id <$> rs); [|by rewrite list_fmap_id].
    apply fmap_zip_with_l; [by rewrite length_range1|].
    eapply Forall_impl; [exact Hl|]. intros r <- v. apply delete_snoc.
Qed.

(** The returned frame when the rules run through, and when they raise. *)
Lemma clean_frame_inr items d d1 :
  all_rules items d = inr d1 → clean_frame items d = with_id d1.
Proof. intros H. unfold clean_frame. by rewrite H, bind_inr, set_id_with_id. Qed.

Lemma clean_frame_inl items d e :
  all_rules items d = inl e → clean_frame items d = empty_frame.
Proof. intros H. unfold clean_frame. by rewrite H. Qed.

Lemma clean_data_returns items l h d :
  h !! l = Some d → returns (clean_data l items) h (clean_frame items d).
Proof.
  intros Hl. destruct (clean_data_run items l h d Hl) as (l' & h' & ? & ? & _).
  by exists l', h'.
Qed.

Lemma all_rules_app items1 items2 d :
  all_rules (items1 ++ items2) d = all_rules items1 d ≫= all_rules items2.
Proof.
  revert d. induction items1 as [|[column options] items1 IH]; intros d; simpl; [done|].
  destruct (column_rules column options d) as [e|d1]; [done|].
  rewrite !bind_inr. apply IH.
Qed.

(** The loop of [clean_data] completes exactly when the chain of frames
    does. *)
Lemma for_items_inr items l h d l1 h1 :
  h !! l = Some d → for_items items l h = (inr l1, h1) →
  ∃ d1, all_rules items d = inr d1.
Proof.
  intros Hl Hrun. pose proof (tracks_for_items items l h d Hl) as H.
  destruct (all_rules items d) as [e|d1]; [|by exists d1].
  destruct H as [h2 H]. congruence.
Qed.

Lemma for_items_returns items l h d d' :
  h !! l = Some d → all_rules items d = inr d' → returns (for_items items l) h d'.
Proof.
  intros Hl Hall. pose proof (tracks_for_items items l h d Hl) as H.
  rewrite Hall in H. destruct H as (h2 & l' & E & Hl' & _). by exists l', (h ++ h2).
Qed.

Ltac eval_options :=
  repeat match goal with
  | |- context [in_options ?r ?o] =>
      let b := eval vm_compute in (in_options r o) in
      change (in_options r o) with b
  end; cbv iota.

(** An item that names a single rule applies just that rule. *)
Lemma column_rules_single r column d :
  column_rules column [r] d = apply_rule r column d.
Proof.
  unfold column_rules, when_selected.
  destruct r; eval_options; rewrite ?bind_inr;
    match goal with
    | |- context [apply_rule ?r column d] => by destruct (apply_rule r column d)
    end.
Qed.

(** ** Duplicates *)

Lemma key_eqb_canon a b : key_eqb a b = true ↔ canon a = canon b.
Proof.
  destruct a, b; simpl; try (split; [done|discriminate]); try done;
    rewrite bool_decide_eq_true; split; congruence.
Qed.

Lemma seen_key_canon v seen : seen_key v seen = true ↔ canon v ∈ canon <$> seen.
Proof.
  unfold seen_key. rewrite existsb_exists, list_elem_of_fmap.
  split.
  - intros (s & Hin%list_elem_of_In & Hk%key_eqb_canon). eauto.
  - intros (s & Hk & Hin). exists s. split; [by apply list_elem_of_In|].
    by apply key_eqb_canon.
Qed.

(** Only which keys of the rows have been seen matters. *)
Lemma firsts_seen_ext k seen1 seen2 l :
  (∀ r, r ∈ l → seen_key (cell k r) seen1 = seen_key (cell k r) seen2) →
  firsts k seen1 l = firsts k seen2 l.
Proof.
  revert seen1 seen2. induction l as [|r l IH]; intros seen1 seen2 Hs; simpl; [done|].
  fold (seen_key (cell k r) seen1) (seen_key (cell k r) seen2).
  rewrite (Hs r) by apply list_elem_of_here.
  rewrite (IH (cell k r :: seen1) (cell k r :: seen2)); [done|].
  intros r' Hin. unfold seen_key in *. simpl.
  by rewrite (Hs r') by (by apply list_elem_of_further).
Qed.

Lemma seen_key_again v w seen :
  seen_key w seen = true → seen_key v (w :: seen) = seen_key v seen.
Proof.
  intros Hw. apply eq_true_iff_eq. rewrite !seen_key_canon, fmap_cons, elem_of_cons.
  apply seen_key_canon in Hw. split; [|by right].
  intros [->|?]; done.
Qed.

(** The rows kept are unchanged by a second pass. *)
Lemma firsts_firsts k seen l : firsts k seen (firsts k seen l) = firsts k seen l.
Proof.
  revert seen. induction l as [|r l IH]; intros seen; simpl; [done|].
  destruct (existsb (key_eqb (cell k r)) seen) eqn:Hr.
  - rewrite <- (IH (cell k r :: seen)) at 2.
    apply firsts_seen_ext. intros r' _. symmetry. by apply seen_key_again.
  - simpl. by rewrite Hr, IH.
Qed.









(** The filtering rules test the key of the cell. *)
Lemma rule_test_key r a b : key_eqb a b = true → rule_test r a = rule_test r b.
Proof.
  intros H%key_eqb_canon.
  destruct a, b; simpl in H; try discriminate; try (injection H as ->); try done;
    by destruct r.
Qed.

(** Dropping duplicates and filtering on the key commute. *)
Lemma firsts_filter k (p : value → bool) seen l :
  (∀ a b, key_eqb a b = true → p a = p b) →
  firsts k seen (filter (λ r, p (cell k r)) l) =
  filter (λ r, p (cell k r)) (firsts k seen l).
Proof.
  intros Hp. revert seen. induction l as [|r l IH]; intros seen; [done|].
  assert (Hdrop : p (cell k r) = false →
    firsts k (cell k r :: seen) (filter (λ r, p (cell k r)) l) =
    firsts k seen (filter (λ r, p (cell k r)) l)).
  { intros Hr. apply firsts_seen_ext. intros r' [Hr' _]%list_elem_of_filter.
    unfold seen_key. simpl.
    destruct (key_eqb (cell k r') (cell k r)) eqn:Hk; [|done].
    apply Hp in Hk. rewrite Hk, Hr in Hr'. done. }
  assert (Hr : p (cell k r) = true ∨ p (cell k r) = false)
    by (destruct (p (cell k r)); auto).
  cbn [firsts]. destruct Hr as [Hr|Hr].
  - rewrite filter_cons_True by (by apply Is_true_true_2). cbn [firsts].
    destruct (existsb (key_eqb (cell k r)) seen).
    + apply IH.
    + rewrite filter_cons_True by (by apply Is_true_true_2). by rewrite IH.
  - rewrite filter_cons_False by (by apply Is_true_false_2). rewrite <- Hdrop by done.
    destruct (existsb (key_eqb (cell k r)) seen).
    + apply IH.
    + rewrite filter_cons_False by (by apply Is_true_false_2). apply IH.
Qed.

Lemma rule_rows_filter r k l :
  r ≠ DropDuplicates → rule_rows r k l = filter (λ row, rule_test r (cell k row)) l.
Proof. by destruct r. Qed.

(** The rules of one column commute, and each is idempotent. *)
Lemma rule_rows_comm r1 r2 k l :
  rule_rows r1 k (rule_rows r2 k l) = rule_rows r2 k (rule_rows r1 k l).
Proof.
  destruct (decide (r1 = DropDuplicates)) as [->|H1];
    destruct (decide (r2 = DropDuplicates)) as [->|H2]; [done|..].
  - rewrite !(rule_rows_filter r2) by done. simpl.
    apply (firsts_filter k (rule_test r2)), rule_test_key.
  - rewrite !(rule_rows_filter r1) by done. simpl.
    symmetry. apply (firsts_filter k (rule_test r1)), rule_test_key.
  - rewrite !(rule_rows_filter r1), !(rule_rows_filter r2) by done.
    rewrite !list_filter_filter. apply list_filter_iff. intros row. tauto.
Qed.

Lemma rule_rows_idem r k l : rule_rows r k (rule_rows r k l) = rule_rows r k l.
Proof.
  destruct (decide (r = DropDuplicates)) as [->|H1].
  - apply firsts_firsts.
  - rewrite !(rule_rows_filter r) by done.
    rewrite !list_filter_filter. apply list_filter_iff. intros row. tauto.
Qed.

Lemma in_options_cons r r' options :
  in_options r (r' :: options) = bool_decide (r = r') || in_options r options.
Proof.
  unfold in_options. apply eq_true_iff_eq.
  rewrite orb_true_iff, !bool_decide_eq_true. apply elem_of_cons.
Qed.

Lemma in_options_nil r : in_options r [] = false.
Proof. done. Qed.

Lemma selected_rows_cons order r options k l :
  selected_rows (r :: order) options k l =
  selected_rows order options k (if in_options r options then rule_rows r k l else l).
Proof. done. Qed.

(** A rule that is not in the order taken has no effect on the selection. *)
Lemma selected_rows_unlisted order r options k l :
  r ∉ order → selected_rows order (r :: options) k l = selected_rows order options k l.
Proof.
  revert l. induction order as [|r0 order IH]; intros l; [done|].
  intros [Hne Hnin]%not_elem_of_cons. rewrite !selected_rows_cons, in_options_cons.
  rewrite bool_decide_eq_false_2 by done. simpl. by apply IH.
Qed.

(** Applying a rule first is the same as selecting it. *)
Lemma selected_rows_apply order r options k l :
  NoDup order → r ∈ order →
  selected_rows order options k (rule_rows r k l) = selected_rows order (r :: options) k l.
Proof.
  revert l. induction order as [|r0 order IH]; intros l Hnd Hin.
  - by apply elem_of_nil in Hin.
  - apply NoDup_cons in Hnd as [Hr0 Hnd]. rewrite !selected_rows_cons, in_options_cons.
    destruct (decide (r0 = r)) as [->|Hne].
    + rewrite bool_decide_eq_true_2 by done. simpl.
      rewrite selected_rows_unlisted by done.
      destruct (in_options r options); [by rewrite rule_rows_idem|done].
    + rewrite bool_decide_eq_false_2 by done. simpl.
      apply elem_of_cons in Hin as [->|Hin]; [done|].
      rewrite <- IH by done.
      destruct (in_options r0 options); [by rewrite rule_rows_comm|done].
Qed.

(** The rules of a list in the order listed leave the rows that the source
    order leaves. *)
Lemma listed_rows_selected options k l :
  listed_rows options k l = selected_rows source_order options k l.
Proof.
  revert l. induction options as [|r options IH]; intros l.
  - done.
  - unfold listed_rows in *. simpl. rewrite IH.
    apply selected_rows_apply.
    + by apply (bool_decide_unpack _).
    + destruct r; by apply (bool_decide_unpack _).
Qed.

Lemma when_selected_rows r column options cols rs k :
  get_loc column cols = Some k →
  when_selected r column options (mkDF cols rs) =
  inr (mkDF cols (if in_options r options then rule_rows r k rs else rs)).
Proof.
  intros Hk. unfold when_selected. destruct (in_options r options); [|done].
  by rewrite (apply_rule_present r column _ k).
Qed.

Lemma column_rules_rows column options d k :
  get_loc column (columns d) = Some k →
  column_rules column options d =
  inr (mkDF (columns d) (selected_rows source_order options k (rows d))).
Proof.
  intros Hk. destruct d as [cols rs]. simpl in Hk.
  unfold column_rules, selected_rows, source_order. cbn [foldl columns rows].
  by rewrite !(when_selected_rows _ _ _ _ _ k Hk), !bind_inr,
    !(when_selected_rows _ _ _ _ _ k Hk), !bind_inr,
    !(when_selected_rows _ _ _ _ _ k Hk), !bind_inr,
    !(when_selected_rows _ _ _ _ _ k Hk), !bind_inr,
    !(when_selected_rows _ _ _ _ _ k Hk).
Qed.

Lemma listed_rules_rows column options d k :
  get_loc column (columns d) = Some k →
  listed_rules column options d =
  inr (mkDF (columns d) (listed_rows options k (rows d))).
Proof.
  revert d. induction options as [|r options IH]; intros d Hk; simpl.
  - by destruct d.
  - rewrite (apply_rule_present r column d k Hk), bind_inr. by rewrite IH.
Qed.

(** *** A column the frame does not have *)

Lemma apply_rule_absent r column d :
  column ∉ columns d →
  apply_rule r column d =
  if bool_decide (r = DropDuplicates) && is_empty d then inr d else inl (KeyError column).
Proof.
  intros Hn. pose proof Hn as Hk%get_loc_None.
  destruct r; simpl; rewrite ?keep_rows_absent by done; try done.
  unfold drop_duplicates. by rewrite Hk.
Qed.

Lemma listed_rules_absent column options d :
  column ∉ columns d →
  listed_rules column options d =
  if absent_ok d options then inr d else inl (KeyError column).
Proof.
  intros Hn. induction options as [|r options IH]; [done|].
  cbn [listed_rules absent_ok forallb]. rewrite apply_rule_absent by done.
  destruct (bool_decide (r = DropDuplicates) && is_empty d); [|done].
  by rewrite bind_inr, IH.
Qed.

Lemma absent_ok_flags d options :
  absent_ok d options =
  (negb (in_options DropDuplicates options) || is_empty d) &&
  negb (in_options RemoveNulls options) && negb (in_options ValidateString options) &&
  negb (in_options ValidateLength options) && negb (in_options ValidateNumeric options).
Proof.
  induction options as [|r options IH]; [done|].
  cbn [absent_ok forallb]. fold (absent_ok d options).
  rewrite IH, !in_options_cons.
  destruct r; cbn;
    destruct (is_empty d), (in_options DropDuplicates options),
      (in_options RemoveNulls options), (in_options ValidateString options),
      (in_options ValidateLength options), (in_options ValidateNumeric options);
    reflexivity.
Qed.

Lemma column_rules_absent column options d :
  column ∉ columns d →
  column_rules column options d =
  if absent_ok d options then inr d else inl (KeyError column).
Proof.
  intros Hn. rewrite absent_ok_flags. unfold column_rules, when_selected.
  rewrite (apply_rule_absent DropDuplicates _ _ Hn).
  rewrite bool_decide_eq_true_2 by done.
  destruct (in_options DropDuplicates options), (is_empty d),
    (in_options RemoveNulls options), (in_options ValidateString options),
    (in_options ValidateLength options), (in_options ValidateNumeric options);
    cbv iota; cbn [andb orb negb];
    repeat first [ rewrite bind_inl | rewrite bind_inr; cbv beta
                 | rewrite (apply_rule_absent _ _ _ Hn); cbn ];
    reflexivity.
Qed.

(** The source order and the listed order give the same frame or the same
    exception, for every rule list. *)
Lemma column_rules_listed column options d :
  column_rules column options d = listed_rules column options d.
Proof.
  destruct (get_loc column (columns d)) as [k|] eqn:Hk.
  - rewrite (column_rules_rows _ _ _ k Hk), (listed_rules_rows _ _ _ k Hk).
    by rewrite listed_rows_selected.
  - apply get_loc_None in Hk.
    by rewrite column_rules_absent, listed_rules_absent.
Qed.

Lemma all_rules_listed_eq items d : all_rules items d = all_rules_listed items d.
Proof.
  revert d. induction items as [|[column options] items IH]; intros d; simpl; [done|].
  rewrite column_rules_listed.
  destruct (listed_rules column options d) as [e|d1]; [done|].
  rewrite !bind_inr. apply IH.
Qed.

Lemma clean_frame_listed_eq items d : clean_frame items d = clean_frame_listed items d.
Proof. unfold clean_frame, clean_frame_listed. by rewrite all_rules_listed_eq. Qed.

(** C9: [drop_duplicates] on a column twice in sequence gives what it gives
    once, whether it returns a frame or raises. *)
Theorem drop_duplicates_idempotent column d :
  apply_rule DropDuplicates column d ≫= apply_rule DropDuplicates column =
  apply_rule DropDuplicates column d.
Proof.
  unfold apply_rule. destruct (get_loc column (columns d)) as [k|] eqn:Hk.
  - rewrite (drop_duplicates_present _ _ k Hk), bind_inr.
    rewrite (drop_duplicates_present _ _ k) by done. simpl.
    by rewrite firsts_firsts.
  - unfold drop_duplicates at 2 3. rewrite Hk.
    destruct (is_empty d) eqn:He; [|done].
    rewrite bind_inr. unfold drop_duplicates. by rewrite He.
Qed.

(** ** The engine *)


(** C6: a call either runs the whole sequence of rules and returns the
    resulting frame with its [id] column, or it fails as a whole and returns
    [pd.DataFrame()]; a rule that raises in the middle of the sequence makes
    the call return the empty frame, whatever was filtered before. *)
Theorem clean_data_all_or_nothing items l h d :
  h !! l = Some d →
  (∀ items1 column options items2 d1 e,
     items = items1 ++ (column, options) :: items2 →
     all_rules items1 d = inr d1 →
     column_rules column options d1 = inl e →
     returns (clean_data l items) h empty_frame) ∧
  (returns (clean_data l items) h empty_frame ∨
   ∃ d1 d', all_rules items d = inr d1 ∧ set_id d1 = inr d' ∧
            returns (clean_data l items) h d').
Proof.
  intros Hl. pose proof (clean_data_returns items l h d Hl) as Hret. split.
  - intros items1 column options items2 d1 e -> H1 He.
    rewrite (clean_frame_inl _ _ e) in Hret; [done|].
    rewrite all_rules_app, H1, bind_inr. simpl. by rewrite He.
  - destruct (all_rules items d) as [e|d1] eqn:Hall.
    + left. by rewrite (clean_frame_inl _ _ e) in Hret.
    + right. exists d1, (with_id d1). split_and!; [done|apply set_id_with_id|].
      by rewrite (clean_frame_inr _ _ d1) in Hret.
Qed.

(** C10: when the loop of [clean_data] completes, the returned frame without
    its [id] column has the columns of the input without [id], and its rows
    are rows of the input, cells unchanged, in the order of the input. *)
Theorem clean_data_only_deletes_rows items l h d l1 h1 :
  wf_frame d → h !! l = Some d →
  for_items items l h = (inr l1, h1) →
  ∃ d', returns (clean_data l items) h d' ∧
        columns (without_column "id" d') = columns (without_column "id" d) ∧
        rows (without_column "id" d') `sublist_of` rows (without_column "id" d).
Proof.
  intros Hwf Hl Hrun.
  destruct (for_items_inr _ _ _ _ _ _ Hl Hrun) as [d1 H1].
  pose proof (all_rules_shrinks _ _ _ H1) as Hs.
  exists (with_id d1). rewrite <- (clean_frame_inr _ _ _ H1) at 1.
  split; [by apply clean_data_returns|].
  rewrite without_id_with_id by (by eapply shrinks_wf).
  destruct Hs as [Hc Hr]. unfold without_column. rewrite Hc.
  destruct (get_loc "id" (columns d)) as [k|]; simpl.
  - split; [done|]. by apply fmap_sublist.
  - done.
Qed.

(** C7: on the frame with columns name, age and the rows (alice, 30),
    (alice, 31), (None, 25), (bo, x), with drop_duplicates and remove_nulls on
    name and validate_numeric on age: drop_duplicates drops (alice, 31),
    remove_nulls drops (None, 25), validate_numeric drops (bo, x), and the
    call returns the one row (alice, 30) with id 1. *)
Theorem clean_data_scenario l h :
  text_numeric "30" = true → text_numeric "x" = false →
  h !! l = Some scenario_frame →
  apply_rule DropDuplicates "name" scenario_frame =
    inr (mkDF ["name"; "age"]
           [[VStr "alice"; VStr "30"]; [VNone; VStr "25"]; [VStr "bo"; VStr "x"]]) ∧
  apply_rule RemoveNulls "name"
    (mkDF ["name"; "age"]
       [[VStr "alice"; VStr "30"]; [VNone; VStr "25"]; [VStr "bo"; VStr "x"]]) =
    inr (mkDF ["name"; "age"] [[VStr "alice"; VStr "30"]; [VStr "bo"; VStr "x"]]) ∧
  apply_rule ValidateNumeric "age"
    (mkDF ["name"; "age"] [[VStr "alice"; VStr "30"]; [VStr "bo"; VStr "x"]]) =
    inr (mkDF ["name"; "age"] [[VStr "alice"; VStr "30"]]) ∧
  returns (clean_data l scenario_rules) h
    (mkDF ["name"; "age"; "id"] [[VStr "alice"; VStr "30"; VInt 1]]).
Proof.
  intros H30 Hx Hl.
  assert (Hnum : apply_rule ValidateNumeric "age"
    (mkDF ["name"; "age"] [[VStr "alice"; VStr "30"]; [VStr "bo"; VStr "x"]]) =
    inr (mkDF ["name"; "age"] [[VStr "alice"; VStr "30"]])).
  { cbv. rewrite H30, Hx. reflexivity. }
  split_and!; [done|done|done|].
  assert (Hf : clean_frame scenario_rules scenario_frame =
               mkDF ["name"; "age"; "id"] [[VStr "alice"; VStr "30"; VInt 1]]).
  { cbv. rewrite H30, Hx. reflexivity. }
  rewrite <- Hf. by apply clean_data_returns.
Qed.


Lemma returns_functional m h d1 d2 : returns m h d1 → returns m h d2 → d1 = d2.
Proof.
  intros (l1 & h1 & E1 & L1) (l2 & h2 & E2 & L2). congruence.
Qed.

(** The result depends on which rules a list names, not on how it lists
    them. *)
Lemma column_rules_same_rules column options1 options2 d :
  (∀ r, r ∈ options1 ↔ r ∈ options2) →
  column_rules column options1 d = column_rules column options2 d.
Proof.
  intros Hsame. unfold column_rules, when_selected, in_options.
  by rewrite !(bool_decide_ext _ _ (Hsame _)).
Qed.

(** C1 (amended): what [clean_data] returns is what the rules of each column
    give when they are applied in the order listed, although the source
    tests for them in a fixed order; the rules of one column commute, so
    that validate_numeric before remove_nulls and remove_nulls before
    validate_numeric return the same frame on every input. *)
Theorem clean_data_listed_order items l h d :
  h !! l = Some d →
  returns (clean_data l items) h (clean_frame_listed items d) ∧
  ∀ column, ∃ d',
    returns (clean_data l [(column, [ValidateNumeric; RemoveNulls])]) h d' ∧
    returns (clean_data l [(column, [RemoveNulls; ValidateNumeric])]) h d'.
Proof.
  intros Hl. split.
  - rewrite <- clean_frame_listed_eq. by apply clean_data_returns.
  - intros column.
    exists (clean_frame [(column, [ValidateNumeric; RemoveNulls])] d).
    split; [by apply clean_data_returns|].
    replace (clean_frame [(column, [ValidateNumeric; RemoveNulls])] d)
      with (clean_frame [(column, [RemoveNulls; ValidateNumeric])] d).
    + by apply clean_data_returns.
    + unfold clean_frame. simpl.
      rewrite (column_rules_same_rules column [RemoveNulls; ValidateNumeric]
                 [ValidateNumeric; RemoveNulls]); [done|].
      intros r. rewrite !elem_of_cons. tauto.
Qed.

Lemma absent_ok_other d options r :
  r ∈ options → r ≠ DropDuplicates → absent_ok d options = false.
Proof.
  intros Hin Hne. apply not_true_is_false. unfold absent_ok.
  rewrite forallb_forall. intros Hall.
  specialize (Hall r (proj1 (list_elem_of_In _ _) Hin)).
  apply andb_true_iff in Hall as [Hr%bool_decide_eq_true _]. done.
Qed.

Lemma absent_ok_nonempty d options :
  options ≠ [] → is_empty d = false → absent_ok d options = false.
Proof.
  intros Ho He. destruct options as [|r options]; [done|].
  unfold absent_ok. simpl. by rewrite He, andb_false_r.
Qed.

Lemma all_rules_absent items d column options r :
  (column, options) ∈ items → column ∉ columns d →
  r ∈ options → r ≠ DropDuplicates →
  ∃ e, all_rules items d = inl e.
Proof.
  intros Hin Hn Hr Hne. revert d Hn.
  induction items as [|[c o] items IH]; intros d Hn.
  - by apply elem_of_nil in Hin.
  - simpl. apply elem_of_cons in Hin as [[= <- <-]|Hin].
    + rewrite column_rules_absent, (absent_ok_other _ _ r) by done. eauto.
    + destruct (column_rules c o d) as [e|d1] eqn:Hc; [eauto|].
      rewrite bind_inr. apply IH; [done|].
      apply column_rules_shrinks in Hc as [-> _]. done.
Qed.

(** C2 (amended): an item for a column the frame does not have is fatal.
    When its list names a rule other than drop_duplicates, or names any
    rule while the frame that reaches the item has a row and a column, the
    call returns [pd.DataFrame()] and nothing of the cleaning. *)
Theorem clean_data_unknown_column_fails items l h d column options :
  h !! l = Some d →
  column ∉ columns d →
  ((column, options) ∈ items ∧ ∃ r, r ∈ options ∧ r ≠ DropDuplicates) ∨
  (options ≠ [] ∧ ∃ items1 items2 d1,
     items = items1 ++ (column, options) :: items2 ∧
     all_rules items1 d = inr d1 ∧ is_empty d1 = false) →
  returns (clean_data l items) h empty_frame.
Proof.
  intros Hl Hn Hcase.
  assert (∃ e, all_rules items d = inl e) as [e He].
  { destruct Hcase as [[Hin (r & Hr & Hne)]|[Ho (items1 & items2 & d1 & -> & H1 & He)]].
    - by eapply all_rules_absent.
    - rewrite all_rules_app, H1, bind_inr. simpl.
      rewrite column_rules_absent, absent_ok_nonempty; [eauto|done..|].
      apply all_rules_shrinks in H1 as [-> _]. done. }
  rewrite <- (clean_frame_inl items d e He). by apply clean_data_returns.
Qed.



(** C3, the input on which the source departs from the claim: with no rule
    selected for any column the frame passed in is the frame returned, and
    it has been given the [id] column. *)
Theorem clean_data_without_rules_changes_input :
  clean_data 0%nat [("name", []); ("age", [])] [scenario_frame] =
  (inr 0%nat,
   [mkDF ["name"; "age"; "id"]
      [ [VStr "alice"; VStr "30"; VInt 1];
        [VStr "alice"; VStr "31"; VInt 2];
        [VNone; VStr "25"; VInt 3];
        [VStr "bo"; VStr "x"; VInt 4] ]]).
Proof. reflexivity. Qed.






(** * Further properties of the rules, the engine and its callers *)

(** ** The rules of one column *)

Lemma selected_rows_ext order options1 options2 k l :
  (∀ r, r ∈ options1 ↔ r ∈ options2) →
  selected_rows order options1 k l = selected_rows order options2 k l.
Proof.
  intros Hsame. unfold selected_rows, in_options.
  revert l. induction order as [|r order IH]; intros l; [done|]. simpl.
  by rewrite (bool_decide_ext _ _ (Hsame r)), IH.
Qed.

Lemma rule_rows_sublist r k l : rule_rows r k l `sublist_of` l.
Proof.
  destruct r; simpl; try apply sublist_filter.
  rewrite <- select_duplicated. apply select_sublist.
Qed.

Lemma listed_rows_sublist options k l : listed_rows options k l `sublist_of` l.
Proof.
  revert l. induction options as [|r options IH]; intros l; [done|].
  unfold listed_rows in *. simpl. etrans; [apply IH|apply rule_rows_sublist].
Qed.

Lemma listed_rows_app options1 options2 k l :
  listed_rows (options1 ++ options2) k l = listed_rows options2 k (listed_rows options1 k l).
Proof. unfold listed_rows. apply foldl_app. Qed.

(** X1: any two rules on the same column give the same frame, or raise
    alike, in either order, and a rule applied twice gives what it gives
    once. *)
Theorem rules_commute_and_are_idempotent r1 r2 column d :
  apply_rule r1 column d ≫= apply_rule r2 column =
  apply_rule r2 column d ≫= apply_rule r1 column ∧
  apply_rule r1 column d ≫= apply_rule r1 column = apply_rule r1 column d.
Proof.
  destruct (get_loc column (columns d)) as [k|] eqn:Hk.
  - rewrite !(apply_rule_present _ _ d k Hk), !bind_inr.
    rewrite !(apply_rule_present _ _ _ k) by done. simpl.
    by rewrite (rule_rows_comm r2 r1), rule_rows_idem.
  - apply get_loc_None in Hk. rewrite !(apply_rule_absent _ _ d Hk).
    destruct (bool_decide (r1 = DropDuplicates) && is_empty d) eqn:H1,
      (bool_decide (r2 = DropDuplicates) && is_empty d) eqn:H2;
      rewrite ?bind_inr, ?bind_inl, ?(apply_rule_absent _ _ d Hk), ?H1, ?H2; done.
Qed.

Lemma all_rules_same_rules items1 items2 d :
  Forall2 (λ i1 i2, i1.1 = i2.1 ∧ ∀ r, r ∈ i1.2 ↔ r ∈ i2.2) items1 items2 →
  all_rules items1 d = all_rules items2 d.
Proof.
  intros HF. revert d. induction HF as [|[c1 o1] [c2 o2] items1 items2 [Hc Ho] _ IH];
    intros d; [done|].
  simpl in *. subst c2. rewrite (column_rules_same_rules c1 o1 o2 d Ho).
  destruct (column_rules c1 o2 d); [done|]. rewrite !bind_inr. apply IH.
Qed.

(** X2: two rule sets with the same columns in the same order whose lists
    name the same rules, in whatever order and however often, make
    [clean_data] return the same frame. *)
Theorem clean_data_same_rules items1 items2 l h d :
  h !! l = Some d →
  Forall2 (λ i1 i2, i1.1 = i2.1 ∧ ∀ r, r ∈ i1.2 ↔ r ∈ i2.2) items1 items2 →
  ∃ d', returns (clean_data l items1) h d' ∧ returns (clean_data l items2) h d'.
Proof.
  intros Hl HF. exists (clean_frame items1 d). split; [by apply clean_data_returns|].
  replace (clean_frame items1 d) with (clean_frame items2 d);
    [by apply clean_data_returns|].
  unfold clean_frame. by rewrite (all_rules_same_rules items1 items2).
Qed.

Lemma filter_numeric_notnull k (l : list (list value)) :
  filter (λ row, to_numeric_notnull (cell k row))
    (filter (λ row, notnull (cell k row)) l) =
  filter (λ row, to_numeric_notnull (cell k row)) l.
Proof.
  rewrite list_filter_filter. apply list_filter_iff. intros row.
  split; [tauto|]. intros H. split; [done|]. by destruct (cell k row).
Qed.

(** X3: where validate_numeric is selected, selecting remove_nulls as well
    changes nothing: the frame returned, or the exception raised, is the
    same. *)
Theorem remove_nulls_redundant_with_validate_numeric column options d :
  ValidateNumeric ∈ options →
  column_rules column (RemoveNulls :: options) d = column_rules column options d.
Proof.
  intros Hin. destruct (get_loc column (columns d)) as [k|] eqn:Hk.
  - rewrite !(column_rules_rows _ _ _ k Hk). do 2 f_equal.
    assert (Hnd : NoDup source_order) by (by apply (bool_decide_unpack _)).
    assert (Hvn : ValidateNumeric ∈ source_order) by (by apply (bool_decide_unpack _)).
    assert (Hrn : RemoveNulls ∈ source_order) by (by apply (bool_decide_unpack _)).
    assert (Hadd : ∀ r, r ∈ ValidateNumeric :: options ↔ r ∈ options).
    { intros r. rewrite elem_of_cons. split; [intros [->|?]; done|by right]. }
    rewrite <- (selected_rows_apply _ RemoveNulls _ _ _ Hnd Hrn).
    rewrite <- !(selected_rows_ext source_order _ options _ _ Hadd).
    rewrite <- !(selected_rows_apply _ ValidateNumeric _ _ _ Hnd Hvn).
    simpl. by rewrite filter_numeric_notnull.
  - apply get_loc_None in Hk. rewrite !column_rules_absent by done.
    rewrite (absent_ok_other d options ValidateNumeric) by done.
    by rewrite (absent_ok_other d (RemoveNulls :: options) RemoveNulls)
      by (done || apply list_elem_of_here).
Qed.

(** X4: for one column of the frame, selecting more rules never brings a row
    back: the rows left by the longer list are among the rows left by the
    shorter one, in the same order. *)
Theorem more_rules_fewer_rows column options options' d :
  column ∈ columns d →
  (∀ r, r ∈ options → r ∈ options') →
  ∃ d1 d2, column_rules column options d = inr d1 ∧
           column_rules column options' d = inr d2 ∧
           columns d2 = columns d1 ∧
           rows d2 `sublist_of` rows d1.
Proof.
  intros [k Hk]%get_loc_is_Some Hsub.
  rewrite !(column_rules_rows _ _ _ k Hk).
  exists (mkDF (columns d) (selected_rows source_order options k (rows d))),
    (mkDF (columns d) (selected_rows source_order options' k (rows d))).
  split_and!; [done..|]. cbn [rows].
  rewrite (selected_rows_ext _ options' (options ++ options')).
  - rewrite <- !listed_rows_selected, listed_rows_app. apply listed_rows_sublist.
  - intros r. rewrite elem_of_app. split; [by right|]. intros [?|?]; auto.
Qed.

(** X5: remove_nulls on a column of the frame returns, in their order, the
    rows whose cell in that column is neither [None] nor [NaN]. *)
Theorem remove_nulls_keeps_present column l h d k :
  h !! l = Some d →
  get_loc column (columns d) = Some k →
  returns (for_items [(column, [RemoveNulls])] l) h
    (mkDF (columns d)
       (filter (λ row, cell k row ≠ VNone ∧ cell k row ≠ VNaN) (rows d))).
Proof.
  intros Hl Hk. apply (for_items_returns _ _ _ d); [done|]. simpl.
  rewrite column_rules_single, (apply_rule_present _ _ _ k Hk), bind_inr.
  simpl. do 2 f_equal. apply list_filter_iff. intros row.
  destruct (cell k row); simpl; split; try done; try tauto; by intros [].
Qed.

(** ** Text: [strip] and [str] of integers *)

















(** ** The objects a call touches *)


(** X8: a call of [clean_data] changes no frame that existed before except,
    possibly, the one passed in; it only adds objects to the store. *)
Theorem clean_data_touches_only_its_argument items l h d :
  h !! l = Some d →
  ∃ l' h', clean_data l items h = (inr l', h') ∧
           (length h ≤ length h')%nat ∧
           ∀ l0, l0 ≠ l → (l0 < length h)%nat → h' !! l0 = h !! l0.
Proof.
  intros Hl. destruct (clean_data_run items l h d Hl) as (l' & h' & E & _ & H).
  exists l', h'. split; [done|]. destruct (rebinds items).
  - destruct H as [_ [h2 ->]]. split; [rewrite length_app; lia|].
    intros l0 _ Hlt. by apply lookup_app_l.
  - destruct H as [_ ->]. split; [by rewrite length_insert|].
    intros l0 Hne _. by apply list_lookup_insert_ne.
Qed.




Lemma columns_with_id_nonempty d : columns (with_id d) ≠ [].
Proof.
  rewrite columns_with_id. case_bool_decide as Hid.
  - intros Hnil. rewrite Hnil in Hid. by apply elem_of_nil in Hid.
  - by destruct (columns d).
Qed.


(** ** [drop_duplicates] as an object method *)




(** ** The order of the items *)

Lemma listed_rows_pass options k (l : list (list value)) :
  DropDuplicates ∉ options →
  listed_rows options k l = filter (λ row, pass options (cell k row)) l.
Proof.
  revert l. induction options as [|r options IH]; intros l Hdd.
  - unfold listed_rows. simpl.
    induction l as [|x l IHl]; [done|].
    rewrite filter_cons_True by done. by f_equal.
  - apply not_elem_of_cons in Hdd as [Hr Hdd].
    unfold listed_rows in *. cbn [foldl]. rewrite IH by done.
    rewrite rule_rows_filter by done. rewrite list_filter_filter.
    apply list_filter_iff. intros row. simpl.
    destruct (rule_test r (cell k row)), (pass options (cell k row)); simpl; tauto.
Qed.

(** What an item without drop_duplicates does to a frame. *)
Lemma filter_item column options d :
  DropDuplicates ∉ options →
  column_rules column options d =
  if decide (options = []) then inr d
  else match get_loc column (columns d) with
       | Some k => inr (mkDF (columns d)
                          (filter (λ row, pass options (cell k row)) (rows d)))
       | None => inl (KeyError column)
       end.
Proof.
  intros Hdd. destruct (decide (options = [])) as [->|Hne].
  { apply (all_rules_no_rebind [(column, [])] d). done. }
  destruct (get_loc column (columns d)) as [k|] eqn:Hk.
  - rewrite (column_rules_rows _ _ _ k Hk), <- listed_rows_selected.
    by rewrite listed_rows_pass.
  - apply get_loc_None in Hk. rewrite column_rules_absent by done.
    destruct options as [|r options]; [done|].
    rewrite (absent_ok_other d (r :: options) r); [done|apply list_elem_of_here|].
    intros ->. apply Hdd, list_elem_of_here.
Qed.

Lemma frame_of_bind (x : exn + DataFrame) (f : DataFrame → exn + DataFrame) :
  frame_of (x ≫= f) = frame_of x ≫= (λ d, frame_of (f d)).
Proof. by destruct x. Qed.

Lemma bind_assoc_res {A B C} (x : exn + A) (f : A → exn + B) (g : B → exn + C) :
  (x ≫= f) ≫= g = x ≫= (λ a, f a ≫= g).
Proof. by destruct x. Qed.

(** Two items without drop_duplicates can change places. *)
Lemma filter_items_swap c1 o1 c2 o2 d :
  DropDuplicates ∉ o1 → DropDuplicates ∉ o2 →
  frame_of (column_rules c1 o1 d ≫= column_rules c2 o2) =
  frame_of (column_rules c2 o2 d ≫= column_rules c1 o1).
Proof.
  intros H1 H2. rewrite (filter_item c1 o1 d H1), (filter_item c2 o2 d H2).
  destruct (decide (o1 = [])) as [E1|E1], (decide (o2 = [])) as [E2|E2];
    rewrite ?bind_inr, ?(filter_item c1 o1 _ H1), ?(filter_item c2 o2 _ H2);
    rewrite ?decide_True, ?decide_False by done; try done.
  - destruct (get_loc c2 (columns d)); [|done].
    by rewrite bind_inr, (filter_item c1 o1 _ H1), decide_True.
  - destruct (get_loc c1 (columns d)); [|done].
    by rewrite bind_inr, (filter_item c2 o2 _ H2), decide_True.
  - destruct (get_loc c1 (columns d)) as [k1|] eqn:Hk1,
      (get_loc c2 (columns d)) as [k2|] eqn:Hk2;
      rewrite ?bind_inr, ?bind_inl, ?(filter_item c1 o1 _ H1), ?(filter_item c2 o2 _ H2);
      rewrite ?decide_False by done; simpl; rewrite ?Hk1, ?Hk2; try done.
    simpl. do 2 f_equal. rewrite !list_filter_filter. apply list_filter_iff.
    intros row. tauto.
Qed.

Lemma all_rules_permutation items items' :
  items ≡ₚ items' →
  Forall (λ item, DropDuplicates ∉ item.2) items →
  ∀ d, frame_of (all_rules items d) = frame_of (all_rules items' d).
Proof.
  induction 1 as [|[c o] items items' Hp IH|[c1 o1] [c2 o2] items|items1 items2 items3 Hp1 IH1 Hp2 IH2];
    intros HF d.
  - done.
  - apply Forall_cons in HF as [_ HF]. simpl. rewrite !frame_of_bind.
    destruct (column_rules c o d) as [e|d1]; [done|]. simpl. by apply IH.
  - apply Forall_cons in HF as [H1 [H2 _]%Forall_cons]. simpl in H1, H2.
    cbn [all_rules]. rewrite <- !bind_assoc_res, !(frame_of_bind (_ ≫= _)).
    by rewrite (filter_items_swap c1 o1 c2 o2 d).
  - rewrite IH1 by done. apply IH2. by rewrite <- Hp1.
Qed.

(** X12: a rule set none of whose items names drop_duplicates can list its
    columns in any order: [clean_data] returns the same frame. *)
Theorem filter_rules_in_any_item_order items items' l h d :
  h !! l = Some d →
  items ≡ₚ items' →
  Forall (λ item, DropDuplicates ∉ item.2) items →
  ∃ d', returns (clean_data l items) h d' ∧ returns (clean_data l items') h d'.
Proof.
  intros Hl Hp HF. exists (clean_frame items d). split; [by apply clean_data_returns|].
  replace (clean_frame items d) with (clean_frame items' d);
    [by apply clean_data_returns|].
  pose proof (all_rules_permutation items items' Hp HF d) as Hf.
  unfold clean_frame.
  destruct (all_rules items d), (all_rules items' d); simpl in Hf; by simplify_eq.
Qed.

(** ** Cleaning what has been cleaned *)




















(** ** The callers *)

Lemma dict_setitem_new column options items :
  column ∉ items.*1 → dict_setitem column options items = items ++ [(column, options)].
Proof.
  induction items as [|[c o] items IH]; [done|].
  rewrite fmap_cons. intros [Hne Hn]%not_elem_of_cons. simpl in *.
  rewrite decide_False by done. by rewrite IH.
Qed.

Lemma build_options_from acc cols (selection : string → list rule) :
  NoDup (acc.*1 ++ cols) →
  foldl (λ cleaning_options column,
           dict_setitem column (selection column) cleaning_options) acc cols =
  acc ++ ((λ c, (c, selection c)) <$> cols).
Proof.
  revert acc. induction cols as [|c cols IH]; intros acc Hnd.
  - by rewrite app_nil_r.
  - cbn [foldl]. rewrite dict_setitem_new.
    + rewrite IH; [by rewrite <- app_assoc|].
      rewrite fmap_app. simpl. by rewrite <- app_assoc.
    + apply NoDup_app in Hnd as (_ & Hdis & _). intros Hin.
      apply (Hdis c Hin), list_elem_of_here.
Qed.

Lemma build_options_NoDup cols (selection : string → list rule) :
  NoDup cols → build_options cols selection = (λ c, (c, selection c)) <$> cols.
Proof. intros Hnd. unfold build_options. by rewrite build_options_from. Qed.

Lemma build_options_keys cols (selection : string → list rule) :
  NoDup cols → (build_options cols selection).*1 = cols.
Proof.
  intros Hnd. rewrite build_options_NoDup by done.
  rewrite <- list_fmap_compose. apply list_fmap_id.
Qed.

(** X14: for a frame with distinct column labels, the rule set that step 3
    builds has one item for each column, in the order of the columns, with
    what was selected for that column. *)
Theorem build_options_items cols (selection : string → list rule) :
  NoDup cols →
  build_options cols selection = (λ c, (c, selection c)) <$> cols ∧
  (build_options cols selection).*1 = cols.
Proof.
  intros Hnd. split; [by apply build_options_NoDup|by apply build_options_keys].
Qed.

Lemma is_empty_with_id d : is_empty (with_id d) = bool_decide (rows d = []).
Proof.
  unfold is_empty. rewrite (bool_decide_eq_false_2 (columns (with_id d) = []))
    by apply columns_with_id_nonempty.
  simpl. apply bool_decide_ext.
  rewrite <- !length_zero_iff_nil. fold (len (with_id d)). by rewrite len_with_id.
Qed.

Lemma step3_run ss (selection : string → list rule) h raw :
  h !! raw_data ss = Some raw → wf_frame raw → is_empty raw = false →
  ∃ l' h' d1,
    all_rules (build_options (columns raw) selection) raw = inr d1 ∧
    shrinks raw d1 ∧
    step3 ss selection true h = (inr (mkSession (raw_data ss) l'), h') ∧
    h' !! l' = Some (with_id d1).
Proof.
  intros Hl [Hnd Hlen] He.
  pose proof (build_options_keys (columns raw) selection Hnd) as Hkeys.
  destruct (all_rules_present (build_options (columns raw) selection) raw) as [d1 H1].
  { intros item Hin. rewrite <- Hkeys. by apply list_elem_of_fmap_2. }
  destruct (clean_data_run (build_options (columns raw) selection) _ h raw Hl)
    as (l' & h' & E & Hl' & _).
  rewrite (clean_frame_inr _ _ _ H1) in Hl'.
  exists l', h', d1. split_and!; [done|by eapply all_rules_shrinks| |done].
  unfold step3, deref. rewrite bind_run, Hl. simpl. rewrite He. simpl.
  by rewrite bind_run, E.
Qed.


(** X16: after a run in which Clean Data was pressed on raw data that is not
    empty, a run in which Load Cleaned Data is pressed hands the cleaned
    frame to [load_cleaned_data] when at least one row was left, and nothing
    when the cleaning left no row; neither the session nor the store
    changes in that second run. *)
Theorem load_after_clean ss (selection : string → list rule) h raw :
  h !! raw_data ss = Some raw → wf_frame raw → is_empty raw = false →
  ∃ ss1 h1 d', run ss selection true false h = (inr (ss1, None), h1) ∧
               h1 !! cleaned_data ss1 = Some d' ∧
               run ss1 selection false true h1 =
                 (inr (ss1, if decide (len d' = 0%nat) then None
                            else Some (cleaned_data ss1)), h1).
Proof.
  intros Hl Hwf He.
  destruct (step3_run ss selection h raw Hl Hwf He) as (l' & h' & d1 & H1 & Hs & E & Hl').
  exists (mkSession (raw_data ss) l'), h', (with_id d1).
  assert (Hstep4 : ∀ clicked, step4 (mkSession (raw_data ss) l') clicked h' =
            (inr (if negb (bool_decide (rows d1 = [])) && clicked
                  then Some l' else None), h')).
  { intros clicked. unfold step4, deref. rewrite bind_run. simpl. rewrite Hl'. simpl.
    rewrite is_empty_with_id. by destruct (bool_decide (rows d1 = [])), clicked. }
  split_and!; [|done|].
  - unfold run. rewrite bind_run, E, bind_run, Hstep4. by rewrite andb_false_r.
  - unfold run. rewrite bind_run.
    assert (E3 : step3 (mkSession (raw_data ss) l') selection false h' =
                 (inr (mkSession (raw_data ss) l'), h')).
    { unfold step3, deref. rewrite bind_run. simpl.
      by destruct (negb (is_empty (default empty_frame (h' !! raw_data ss)))). }
    rewrite E3, bind_run, Hstep4, andb_true_r. simpl.
    rewrite len_with_id. unfold len.
    destruct (rows d1) as [|r rs]; [done|].
    by rewrite bool_decide_eq_false_2.
Qed.

(** X17: the index at which a select box of step 2 starts is never out of
    range for a list of names that is not empty, and looking it up never
    raises: it is the position of the name selected before when that name
    is still offered, and 0 otherwise. *)
Theorem selectbox_index_in_range names selected :
  names ≠ [] →
  ∃ i, selectbox_index names selected = inr i ∧
       (i < length names)%nat ∧
       if decide (selected ∈ names) then names !! i = Some selected else i = 0%nat.
Proof.
  intros Hne. unfold selectbox_index, list_index.
  destruct (decide (selected ∈ names)) as [Hin|Hn].
  - rewrite bool_decide_eq_true_2 by done.
    destruct (get_loc_is_Some _ _ Hin) as [i Hi]. rewrite Hi.
    apply get_loc_Some in Hi. exists i. split_and!; [done| |done].
    by eapply lookup_lt_Some.
  - rewrite bool_decide_eq_false_2 by done. exists 0%nat.
    split_and!; [done| |done]. destruct names; [done|simpl; lia].
Qed.

End Engine.

(** * The properties on concrete inputs *)

(** C1: both orders of validate_numeric and remove_nulls give the same
    frame, on the column None, x, 5 and on every other input: the two
    results never differ. *)
Lemma rule_order_never_differs :
  clean_data all_digits 0%nat [("v", [ValidateNumeric; RemoveNulls])] [mixed_frame] =
  clean_data all_digits 0%nat [("v", [RemoveNulls; ValidateNumeric])] [mixed_frame] ∧
  ¬ ∃ (text_numeric : string → bool) (column : string) (l : nat)
      (h : list DataFrame) (d1 d2 : DataFrame),
      is_Some (h !! l) ∧
      returns (clean_data text_numeric l [(column, [ValidateNumeric; RemoveNulls])]) h d1 ∧
      returns (clean_data text_numeric l [(column, [RemoveNulls; ValidateNumeric])]) h d2 ∧
      d1 ≠ d2.
Proof.
  split; [reflexivity|].
  intros (tn & column & l & h & d1 & d2 & [d Hl] & R1 & R2 & Hne). apply Hne.
  pose proof (clean_data_returns tn [(column, [ValidateNumeric; RemoveNulls])] l h d Hl) as R1'.
  pose proof (clean_data_returns tn [(column, [RemoveNulls; ValidateNumeric])] l h d Hl) as R2'.
  rewrite (returns_functional _ _ _ _ R1 R1'), (returns_functional _ _ _ _ R2 R2').
  unfold clean_frame. simpl.
  rewrite (column_rules_same_rules tn column [RemoveNulls; ValidateNumeric]
             [ValidateNumeric; RemoveNulls]); [done|].
  intros r. rewrite !elem_of_cons. tauto.
Qed.

Lemma clean_data_listed_order_witness :
  [scenario_frame] !! 0%nat = Some scenario_frame ∧
  returns (clean_data all_digits 0%nat scenario_rules) [scenario_frame]
    (clean_frame_listed all_digits scenario_rules scenario_frame) ∧
  ∀ column, ∃ d',
    returns (clean_data all_digits 0%nat [(column, [ValidateNumeric; RemoveNulls])])
      [scenario_frame] d' ∧
    returns (clean_data all_digits 0%nat [(column, [RemoveNulls; ValidateNumeric])])
      [scenario_frame] d'.
Proof.
  split; [reflexivity|].
  apply (clean_data_listed_order all_digits scenario_rules 0%nat [scenario_frame]
           scenario_frame).
  reflexivity.
Defined.

(** C2: with an item for the column nope, which the frame does not have,
    the call returns the empty frame and not the frame that cleaning the
    column age alone gives. *)
Lemma unknown_column_not_skipped :
  clean_data all_digits 0%nat unknown_rules [scenario_frame] =
    (inr 1%nat, [scenario_frame; empty_frame]) ∧
  clean_frame all_digits (known_items scenario_frame unknown_rules) scenario_frame =
    mkDF ["name"; "age"; "id"]
      [ [VStr "alice"; VStr "30"; VInt 1];
        [VStr "alice"; VStr "31"; VInt 2];
        [VNone; VStr "25"; VInt 3] ] ∧
  clean_frame all_digits unknown_rules scenario_frame ≠
  clean_frame all_digits (known_items scenario_frame unknown_rules) scenario_frame.
Proof. split_and!; [reflexivity|reflexivity|by vm_compute]. Qed.

Lemma clean_data_unknown_column_fails_witness :
  [scenario_frame] !! 0%nat = Some scenario_frame ∧
  ("nope" ∉ columns scenario_frame) ∧
  returns (clean_data all_digits 0%nat unknown_rules) [scenario_frame] empty_frame.
Proof.
  split; [reflexivity|]. split; [by apply (bool_decide_unpack _)|].
  apply (clean_data_unknown_column_fails all_digits unknown_rules 0%nat [scenario_frame]
           scenario_frame "nope" [RemoveNulls]).
  - reflexivity.
  - by apply (bool_decide_unpack _).
  - left. split; [by apply (bool_decide_unpack _)|].
    exists RemoveNulls. split; [by apply (bool_decide_unpack _)|done].
Defined.




Lemma clean_data_all_or_nothing_witness :
  [scenario_frame] !! 0%nat = Some scenario_frame ∧
  (∀ items1 column options items2 d1 e,
     unknown_rules = items1 ++ (column, options) :: items2 →
     all_rules all_digits items1 scenario_frame = inr d1 →
     column_rules all_digits column options d1 = inl e →
     returns (clean_data all_digits 0%nat unknown_rules) [scenario_frame] empty_frame) ∧
  (returns (clean_data all_digits 0%nat unknown_rules) [scenario_frame] empty_frame ∨
   ∃ d1 d', all_rules all_digits unknown_rules scenario_frame = inr d1 ∧
            set_id d1 = inr d' ∧
            returns (clean_data all_digits 0%nat unknown_rules) [scenario_frame] d').
Proof.
  split; [reflexivity|].
  apply (clean_data_all_or_nothing all_digits unknown_rules 0%nat [scenario_frame]
           scenario_frame).
  reflexivity.
Defined.

Lemma clean_data_scenario_witness :
  all_digits "30" = true ∧ all_digits "x" = false ∧
  returns (clean_data all_digits 0%nat scenario_rules) [scenario_frame]
    (mkDF ["name"; "age"; "id"] [[VStr "alice"; VStr "30"; VInt 1]]).
Proof.
  split; [reflexivity|]. split; [reflexivity|].
  apply (clean_data_scenario all_digits 0%nat [scenario_frame]); reflexivity.
Defined.


Lemma clean_data_only_deletes_rows_witness :
  wf_frame scenario_frame ∧
  [scenario_frame] !! 0%nat = Some scenario_frame ∧
  ∃ d', returns (clean_data all_digits 0%nat scenario_rules) [scenario_frame] d' ∧
        columns (without_column "id" d') = columns (without_column "id" scenario_frame) ∧
        rows (without_column "id" d') `sublist_of` rows (without_column "id" scenario_frame).
Proof.
  split; [split; [by apply (bool_decide_unpack _)|repeat constructor]|].
  split; [reflexivity|].
  apply (clean_data_only_deletes_rows all_digits scenario_rules 0%nat [scenario_frame]
           scenario_frame 3%nat
           (for_items all_digits scenario_rules 0%nat [scenario_frame]).2).
  - split; [by apply (bool_decide_unpack _)|repeat constructor].
  - reflexivity.
  - reflexivity.
Defined.

(** ** The further properties on concrete inputs *)

Lemma clean_data_same_rules_witness :
  [scenario_frame] !! 0%nat = Some scenario_frame ∧
  ∃ d', returns (clean_data all_digits 0%nat scenario_rules) [scenario_frame] d' ∧
        returns (clean_data all_digits 0%nat
                   [("name", [RemoveNulls; DropDuplicates; RemoveNulls]);
                    ("age", [ValidateNumeric])]) [scenario_frame] d'.
Proof.
  split; [reflexivity|].
  apply (clean_data_same_rules all_digits scenario_rules
           [("name", [RemoveNulls; DropDuplicates; RemoveNulls]);
            ("age", [ValidateNumeric])] 0%nat [scenario_frame] scenario_frame).
  - reflexivity.
  - unfold scenario_rules.
    constructor; [split; [done|intros r; simpl; rewrite !elem_of_cons, !elem_of_nil; tauto]|].
    constructor; [by split|]. constructor.
Defined.

Lemma remove_nulls_redundant_with_validate_numeric_witness :
  ValidateNumeric ∈ [ValidateNumeric] ∧
  column_rules all_digits "age" [RemoveNulls; ValidateNumeric] scenario_frame =
  column_rules all_digits "age" [ValidateNumeric] scenario_frame.
Proof.
  split; [by apply (bool_decide_unpack _)|].
  apply (remove_nulls_redundant_with_validate_numeric all_digits "age"
           [ValidateNumeric] scenario_frame).
  by apply (bool_decide_unpack _).
Defined.

Lemma more_rules_fewer_rows_witness :
  "name" ∈ columns scenario_frame ∧
  ∃ d1 d2, column_rules all_digits "name" [DropDuplicates] scenario_frame = inr d1 ∧
           column_rules all_digits "name" [DropDuplicates; RemoveNulls] scenario_frame = inr d2 ∧
           columns d2 = columns d1 ∧
           rows d2 `sublist_of` rows d1.
Proof.
  split; [by apply (bool_decide_unpack _)|].
  apply (more_rules_fewer_rows all_digits "name" [DropDuplicates]
           [DropDuplicates; RemoveNulls] scenario_frame).
  - by apply (bool_decide_unpack _).
  - intros r ->%list_elem_of_singleton. apply list_elem_of_here.
Defined.

Lemma remove_nulls_keeps_present_witness :
  [scenario_frame] !! 0%nat = Some scenario_frame ∧
  get_loc "name" (columns scenario_frame) = Some 0%nat ∧
  returns (for_items all_digits [("name", [RemoveNulls])] 0%nat) [scenario_frame]
    (mkDF (columns scenario_frame)
       (filter (λ row, cell 0 row ≠ VNone ∧ cell 0 row ≠ VNaN) (rows scenario_frame))).
Proof.
  split; [reflexivity|]. split; [reflexivity|].
  apply (remove_nulls_keeps_present all_digits "name" 0%nat [scenario_frame]
           scenario_frame 0%nat); reflexivity.
Defined.



Lemma clean_data_touches_only_its_argument_witness :
  [pair_frame; scenario_frame] !! 1%nat = Some scenario_frame ∧
  ∃ l' h', clean_data all_digits 1%nat scenario_rules [pair_frame; scenario_frame] =
             (inr l', h') ∧
           (length [pair_frame; scenario_frame] ≤ length h')%nat ∧
           ∀ l0, l0 ≠ 1%nat → (l0 < length [pair_frame; scenario_frame])%nat →
                 h' !! l0 = [pair_frame; scenario_frame] !! l0.
Proof.
  split; [reflexivity|].
  apply (clean_data_touches_only_its_argument all_digits scenario_rules 1%nat
           [pair_frame; scenario_frame] scenario_frame).
  reflexivity.
Defined.




Lemma filter_rules_in_any_item_order_witness :
  [scenario_frame] !! 0%nat = Some scenario_frame ∧
  ∃ d', returns (clean_data all_digits 0%nat
                   [("name", [RemoveNulls]); ("age", [ValidateNumeric])])
          [scenario_frame] d' ∧
        returns (clean_data all_digits 0%nat
                   [("age", [ValidateNumeric]); ("name", [RemoveNulls])])
          [scenario_frame] d'.
Proof.
  split; [reflexivity|].
  apply (filter_rules_in_any_item_order all_digits
           [("name", [RemoveNulls]); ("age", [ValidateNumeric])]
           [("age", [ValidateNumeric]); ("name", [RemoveNulls])]
           0%nat [scenario_frame] scenario_frame).
  - reflexivity.
  - apply perm_swap.
  - repeat constructor; by apply (bool_decide_unpack _).
Defined.


Lemma build_options_items_witness :
  NoDup (columns scenario_frame) ∧
  build_options (columns scenario_frame) scenario_selection =
    (λ c, (c, scenario_selection c)) <$> columns scenario_frame ∧
  (build_options (columns scenario_frame) scenario_selection).*1 = columns scenario_frame.
Proof.
  split; [by apply (bool_decide_unpack _)|].
  apply (build_options_items (columns scenario_frame) scenario_selection).
  by apply (bool_decide_unpack _).
Defined.


Lemma load_after_clean_witness :
  [scenario_frame] !! raw_data (mkSession 0%nat 0%nat) = Some scenario_frame ∧
  wf_frame scenario_frame ∧
  is_empty scenario_frame = false ∧
  ∃ ss1 h1 d', run all_digits (mkSession 0%nat 0%nat) scenario_selection true false
                 [scenario_frame] = (inr (ss1, None), h1) ∧
               h1 !! cleaned_data ss1 = Some d' ∧
               run all_digits ss1 scenario_selection false true h1 =
                 (inr (ss1, if decide (len d' = 0%nat) then None
                            else Some (cleaned_data ss1)), h1).
Proof.
  split; [reflexivity|].
  split; [split; [by apply (bool_decide_unpack _)|repeat constructor]|].
  split; [reflexivity|].
  apply (load_after_clean all_digits (mkSession 0%nat 0%nat) scenario_selection
           [scenario_frame] scenario_frame).
  - reflexivity.
  - split; [by apply (bool_decide_unpack _)|repeat constructor].
  - reflexivity.
Defined.

Lemma selectbox_index_in_range_witness :
  ["etl"; "hr"; "sales"] ≠ [] ∧
  ∃ i, selectbox_index ["etl"; "hr"; "sales"] "hr" = inr i ∧
       (i < length ["etl"; "hr"; "sales"])%nat ∧
       if decide ("hr" ∈ ["etl"; "hr"; "sales"])
       then ["etl"; "hr"; "sales"] !! i = Some "hr" else i = 0%nat.
Proof.
  split; [discriminate|].
  apply (selectbox_index_in_range ["etl"; "hr"; "sales"] "hr"). discriminate.
Defined.
